(** * Pixey Dust: the BLE sensor monitor of [App.tsx]

    A shallow embedding of the single React component [App]: its eight
    [useState] cells, the handlers it registers with the BLE manager and
    the permission API, and the event loop that runs them.  Every call
    into the platform (BLE manager, [PermissionsAndroid], [Alert],
    [console], [setTimeout]) is logged as an effect, and what the
    platform answers, [JSON.parse] included, is an input of the handler.

    Conventions: a state cell read by a handler has the value of the
    render the handler was called from; [setX] calls take effect in
    order; time is a clock in milliseconds that advances between events,
    and a [setTimeout] callback fires when the clock reaches its due
    time. *)

From Stdlib Require Import List String Ascii ZArith Lia Bool PrimFloat DecimalString.
Import ListNotations.
Local Open Scope string_scope.
Local Open Scope Z_scope.
Set Warnings "-register-all".

(* ===================================================================== *)
(** ** JavaScript values *)
(* ===================================================================== *)

Module JS.

(** The values [JSON.parse] returns, and [undefined] for a property that
    is not there.  Numbers are binary64, as in the language. *)
Inductive Value : Type :=
| Undefined
| Null
| Boolean (b : bool)
| Number (x : float)
| Str (s : string)
| Array (items : list Value)
| Object (fields : list (string * Value)).

(** [ToBoolean]: [undefined], [null], [false], [+0], [-0], [NaN] and the
    empty string are falsy; everything else is truthy. *)
Definition truthy (v : Value) : bool :=
  match v with
  | Undefined | Null => false
  | Boolean b => b
  | Number x => negb (PrimFloat.eqb x 0%float) && PrimFloat.eqb x x
  | Str s => negb (String.eqb s "")
  | Array _ | Object _ => true
  end.

Fixpoint lookup (key : string) (fields : list (string * Value)) : Value :=
  match fields with
  | [] => Undefined
  | (k, v) :: rest => if String.eqb k key then v else lookup key rest
  end.

(** [v.key].  Reading a property of [null] or [undefined] throws a
    [TypeError] ([None] here); a primitive or an array has no property
    called [temperature] or [humidity], so such a read gives
    [undefined]. *)
Definition get (v : Value) (key : string) : option Value :=
  match v with
  | Undefined | Null => None
  | Object fields => Some (lookup key fields)
  | Boolean _ | Number _ | Str _ | Array _ => Some Undefined
  end.

(** [key in v] for an object [v]. *)
Definition has (key : string) (fields : list (string * Value)) : bool :=
  existsb (fun kv => String.eqb (fst kv) key) fields.

(** A field holding a JSON number. *)
Definition numeric (key : string) (fields : list (string * Value)) : bool :=
  match lookup key fields with
  | Number _ => true
  | _ => false
  end.

(** A [string | null] operand of [&&], [if] or [+]. *)
Definition truthyStr (s : option string) : bool :=
  match s with
  | Some s => negb (String.eqb s "")
  | None => false
  end.

Definition show (s : option string) : string :=
  match s with
  | Some s => s
  | None => "null"
  end.

(** Template-literal rendering of a non-negative integer. *)
Definition showNat (n : nat) : string :=
  NilEmpty.string_of_uint (Nat.to_uint n).

Definition newline : string := String (ascii_of_nat 10) "".

(** [xs.join(sep)] *)
Fixpoint join (sep : string) (xs : list string) : string :=
  match xs with
  | [] => ""
  | [x] => x
  | x :: rest => x ++ sep ++ join sep rest
  end.

End JS.

(* ===================================================================== *)
(** ** The BLE library's data and the component's state *)
(* ===================================================================== *)

(** [State] of react-native-ble-plx. *)
Inductive State : Type :=
| Unknown | Resetting | Unsupported | Unauthorized | PoweredOff | PoweredOn.

Definition State_eqb (a b : State) : bool :=
  match a, b with
  | Unknown, Unknown | Resetting, Resetting | Unsupported, Unsupported
  | Unauthorized, Unauthorized | PoweredOff, PoweredOff | PoweredOn, PoweredOn => true
  | _, _ => false
  end.

Record Device : Type := { id : string; name : option string }.

Record Service : Type := { serviceUUID : string }.

Record Characteristic : Type := {
  uuid : string;
  isNotifiable : bool;
  value : option string
}.

Record Error : Type := { message : string }.

(** The eight [useState] cells of [App]. *)
Record AppState : Type := {
  sensorData : JS.Value;
  connected : bool;
  statusMsg : string;
  bluetoothState : State;
  scanning : bool;
  devices : list Device;
  selectedDevice : option Device;
  permissionsGranted : bool
}.

Definition initialState : AppState := {|
  sensorData := JS.Object [];
  connected := false;
  statusMsg := "Bluetooth not ready";
  bluetoothState := Unknown;
  scanning := false;
  devices := [];
  selectedDevice := None;
  permissionsGranted := false
|}.

Definition with_sensorData (v : JS.Value) (st : AppState) : AppState :=
  {| sensorData := v; connected := connected st; statusMsg := statusMsg st;
     bluetoothState := bluetoothState st; scanning := scanning st;
     devices := devices st; selectedDevice := selectedDevice st;
     permissionsGranted := permissionsGranted st |}.

Definition with_connected (b : bool) (st : AppState) : AppState :=
  {| sensorData := sensorData st; connected := b; statusMsg := statusMsg st;
     bluetoothState := bluetoothState st; scanning := scanning st;
     devices := devices st; selectedDevice := selectedDevice st;
     permissionsGranted := permissionsGranted st |}.

Definition with_statusMsg (s : string) (st : AppState) : AppState :=
  {| sensorData := sensorData st; connected := connected st; statusMsg := s;
     bluetoothState := bluetoothState st; scanning := scanning st;
     devices := devices st; selectedDevice := selectedDevice st;
     permissionsGranted := permissionsGranted st |}.

Definition with_bluetoothState (s : State) (st : AppState) : AppState :=
  {| sensorData := sensorData st; connected := connected st; statusMsg := statusMsg st;
     bluetoothState := s; scanning := scanning st;
     devices := devices st; selectedDevice := selectedDevice st;
     permissionsGranted := permissionsGranted st |}.

Definition with_scanning (b : bool) (st : AppState) : AppState :=
  {| sensorData := sensorData st; connected := connected st; statusMsg := statusMsg st;
     bluetoothState := bluetoothState st; scanning := b;
     devices := devices st; selectedDevice := selectedDevice st;
     permissionsGranted := permissionsGranted st |}.

Definition with_devices (ds : list Device) (st : AppState) : AppState :=
  {| sensorData := sensorData st; connected := connected st; statusMsg := statusMsg st;
     bluetoothState := bluetoothState st; scanning := scanning st;
     devices := ds; selectedDevice := selectedDevice st;
     permissionsGranted := permissionsGranted st |}.

Definition with_selectedDevice (d : option Device) (st : AppState) : AppState :=
  {| sensorData := sensorData st; connected := connected st; statusMsg := statusMsg st;
     bluetoothState := bluetoothState st; scanning := scanning st;
     devices := devices st; selectedDevice := d;
     permissionsGranted := permissionsGranted st |}.

Definition with_permissionsGranted (b : bool) (st : AppState) : AppState :=
  {| sensorData := sensorData st; connected := connected st; statusMsg := statusMsg st;
     bluetoothState := bluetoothState st; scanning := scanning st;
     devices := devices st; selectedDevice := selectedDevice st;
     permissionsGranted := b |}.

(* ===================================================================== *)
(** ** The platform: permissions, effects and answers *)
(* ===================================================================== *)

Inductive PlatformOS : Type := android | ios | otherOS.

Inductive Permission : Type :=
| ACCESS_FINE_LOCATION | ACCESS_COARSE_LOCATION | BLUETOOTH_SCAN | BLUETOOTH_CONNECT.

Inductive PermissionStatus : Type := GRANTED | DENIED | NEVER_ASK_AGAIN.

Definition isGranted (s : PermissionStatus) : bool :=
  match s with
  | GRANTED => true
  | _ => false
  end.

(** The string behind [PermissionsAndroid.PERMISSIONS.X]. *)
Definition permissionName (p : Permission) : string :=
  match p with
  | ACCESS_FINE_LOCATION => "android.permission.ACCESS_FINE_LOCATION"
  | ACCESS_COARSE_LOCATION => "android.permission.ACCESS_COARSE_LOCATION"
  | BLUETOOTH_SCAN => "android.permission.BLUETOOTH_SCAN"
  | BLUETOOTH_CONNECT => "android.permission.BLUETOOTH_CONNECT"
  end.

(** The arrow function handed to [setTimeout] in [startBLEScan].  It closes
    over [devices] of the render that called [startBLEScan], so the length
    it prints is fixed when it is scheduled. *)
Inductive TimerCallback : Type :=
| StopScan (found : nat).

(** Every call the component makes into the platform. *)
Inductive Effect : Type :=
| AlertAlert (title text : string)
| ConsoleError (label detail : string)
| ConsoleWarn (label detail : string)
| ConsoleLog (label detail : string)
| Check (p : Permission)
| RequestMultiple (ps : list Permission)
| StartDeviceScan
| StopDeviceScan
| SetTimeout (callback : TimerCallback) (delay : Z)
| Connect (d : Device)
| DiscoverAllServicesAndCharacteristics (d : Device)
| Services (d : Device)
| Characteristics (s : Service)
| Monitor (c : Characteristic)
| CancelConnection (d : Device).

(** A logged call: it returned (or its promise resolved), or it threw (or
    its promise rejected). *)
Inductive LogEntry : Type :=
| Did (e : Effect)
| Failed (e : Effect).

Inductive Outcome (A : Type) : Type :=
| Resolved (a : A)
| Rejected (e : Error).
Arguments Resolved {A} a.
Arguments Rejected {A} e.

(** What the platform answers while one handler runs. *)
Record Env : Type := {
  Platform_OS : PlatformOS;
  Platform_Version : Z;
  on_check : Permission -> Outcome bool;
  on_requestMultiple : list Permission -> Outcome (list (Permission * PermissionStatus));
  on_startDeviceScan : Outcome unit;
  on_connect : Device -> Outcome Device;
  on_discover : Device -> Outcome Device;
  on_services : Device -> Outcome (list Service);
  on_characteristics : Service -> Outcome (list Characteristic);
  on_monitor : Characteristic -> Outcome unit;
  on_cancelConnection : Device -> Outcome unit;
  JSON_parse : string -> Outcome JS.Value
}.

(* ===================================================================== *)
(** ** Handlers run in a state, log and exception monad *)
(* ===================================================================== *)

(** A handler reads and writes the state cells, logs its calls, and ends
    normally or by a thrown error.  State written before a throw stays
    written. *)
Definition M (A : Type) : Type := AppState -> Outcome A * AppState * list LogEntry.

Definition ret {A} (a : A) : M A := fun st => (Resolved a, st, []).

Definition bind {A B} (m : M A) (k : A -> M B) : M B :=
  fun st =>
    match m st with
    | (Resolved a, st1, l1) =>
        match k a st1 with
        | (r, st2, l2) => (r, st2, (l1 ++ l2)%list)
        end
    | (Rejected e, st1, l1) => (Rejected e, st1, l1)
    end.

Definition throw {A} (e : Error) : M A := fun st => (Rejected e, st, []).

(** [try { m } catch (error) { h error }] *)
Definition try_catch {A} (m : M A) (h : Error -> M A) : M A :=
  fun st =>
    match m st with
    | (Resolved a, st1, l1) => (Resolved a, st1, l1)
    | (Rejected e, st1, l1) =>
        match h e st1 with
        | (r, st2, l2) => (r, st2, (l1 ++ l2)%list)
        end
    end.

Declare Scope handler_scope.
Delimit Scope handler_scope with handler.
Notation "x <- m ;; k" := (bind m (fun x => k))
  (at level 61, m at next level, right associativity) : handler_scope.
Notation "m ;; k" := (bind m (fun _ => k))
  (at level 61, right associativity) : handler_scope.
Notation "'try' m 'catch' x => h" := (try_catch m (fun x => h))
  (at level 62, x name, m at level 61, h at level 61) : handler_scope.
Local Open Scope handler_scope.

(** A call into the platform with the platform's answer [o]. *)
Definition call {A} (e : Effect) (o : Outcome A) : M A :=
  fun st =>
    (o, st, [match o with Resolved _ => Did e | Rejected _ => Failed e end]).

(** A call that cannot fail. *)
Definition perform (e : Effect) : M unit := call e (Resolved tt).

(** A pure library function that may throw. *)
Definition lift {A} (o : Outcome A) : M A := fun st => (o, st, []).

(** The state cells as the current render sees them. *)
Definition render : M AppState := fun st => (Resolved st, st, []).

Definition modify (f : AppState -> AppState) : M unit :=
  fun st => (Resolved tt, f st, []).

Definition setSensorData (v : JS.Value) : M unit := modify (with_sensorData v).
Definition setConnected (b : bool) : M unit := modify (with_connected b).
Definition setStatusMsg (s : string) : M unit := modify (with_statusMsg s).
Definition setBluetoothState (s : State) : M unit := modify (with_bluetoothState s).
Definition setScanning (b : bool) : M unit := modify (with_scanning b).
Definition setDevices (f : list Device -> list Device) : M unit :=
  modify (fun st => with_devices (f (devices st)) st).
Definition setSelectedDevice (d : option Device) : M unit := modify (with_selectedDevice d).
Definition setPermissionsGranted (b : bool) : M unit := modify (with_permissionsGranted b).

(** [for (const x of xs) { body x }] *)
Fixpoint for_of {A} (xs : list A) (body : A -> M unit) : M unit :=
  match xs with
  | [] => ret tt
  | x :: rest => body x ;; for_of rest body
  end.

Definition state_of {A} (r : Outcome A * AppState * list LogEntry) : AppState :=
  snd (fst r).
Definition log_of {A} (r : Outcome A * AppState * list LogEntry) : list LogEntry :=
  snd r.
Definition result_of {A} (r : Outcome A * AppState * list LogEntry) : Outcome A :=
  fst (fst r).

(* ===================================================================== *)
(** ** The handlers of [App] *)
(* ===================================================================== *)

(** The listener given to [bleManager.onStateChange]. *)
Definition onStateChange (state : State) : M unit :=
  setBluetoothState state ;;
  match state with
  | PoweredOn => setStatusMsg "Bluetooth is ready - Scan for devices"
  | PoweredOff =>
      setStatusMsg "Bluetooth is turned off" ;;
      setConnected false ;;
      setSelectedDevice None
  | Unauthorized => setStatusMsg "Bluetooth permission denied"
  | Unsupported => setStatusMsg "Bluetooth not supported on this device"
  | Unknown | Resetting => ret tt
  end.

(** The array [permissions] of [requestPermissions]. *)
Definition requestedPermissions (version : Z) : list Permission :=
  ([ACCESS_FINE_LOCATION; ACCESS_COARSE_LOCATION]
   ++ (if 31 <=? version then [BLUETOOTH_SCAN; BLUETOOTH_CONNECT] else []))%list.

Definition deniedPermissions (granted : list (Permission * PermissionStatus)) : list string :=
  map (fun entry => permissionName (fst entry))
      (filter (fun entry => negb (isGranted (snd entry))) granted).

Definition requestPermissions (env : Env) : M bool :=
  match Platform_OS env with
  | android =>
      try
        (let permissions := requestedPermissions (Platform_Version env) in
         granted <- call (RequestMultiple permissions) (on_requestMultiple env permissions) ;;
         let allGranted := forallb (fun entry => isGranted (snd entry)) granted in
         if allGranted then ret true
         else
           perform (AlertAlert "Permissions Required"
             ("The following permissions are required for Bluetooth scanning:"
              ++ JS.newline ++ JS.join JS.newline (deniedPermissions granted)
              ++ JS.newline ++ JS.newline
              ++ "Please grant these permissions in Settings.")) ;;
           ret false)
      catch err =>
        (perform (ConsoleWarn "Permission request error:" (message err)) ;;
         perform (AlertAlert "Error" "Failed to request permissions") ;;
         ret false)
  | ios | otherOS => ret true
  end.

Definition checkPermissions (env : Env) : M bool :=
  match Platform_OS env with
  | android =>
      try
        (fineLocation <- call (Check ACCESS_FINE_LOCATION) (on_check env ACCESS_FINE_LOCATION) ;;
         coarseLocation <- call (Check ACCESS_COARSE_LOCATION) (on_check env ACCESS_COARSE_LOCATION) ;;
         if 31 <=? Platform_Version env then
           bluetoothScan <- call (Check BLUETOOTH_SCAN) (on_check env BLUETOOTH_SCAN) ;;
           bluetoothConnect <- call (Check BLUETOOTH_CONNECT) (on_check env BLUETOOTH_CONNECT) ;;
           ret (fineLocation && coarseLocation && bluetoothScan && bluetoothConnect)
         else
           ret (fineLocation && coarseLocation && true && true))
      catch err =>
        (perform (ConsoleWarn "Permission check error:" (message err)) ;;
         ret false)
  | ios | otherOS => ret true
  end.

(** The second [useEffect]: [checkPermissions().then(setPermissionsGranted)]. *)
Definition onMount (env : Env) : M unit :=
  granted <- checkPermissions env ;;
  setPermissionsGranted granted.

(** The updater given to [setDevices] by the scan listener. *)
Definition addDevice (device : Device) (prevDevices : list Device) : list Device :=
  match find (fun d => String.eqb (id d) (id device)) prevDevices with
  | Some _ => prevDevices
  | None => (prevDevices ++ [device])%list
  end.

(** The listener given to [bleManager.startDeviceScan]. *)
Definition onScanResult (error : option Error) (device : option Device) : M unit :=
  match error with
  | Some error =>
      perform (ConsoleError "Scan error:" (message error)) ;;
      setStatusMsg ("Scan error: " ++ message error) ;;
      setScanning false
  | None =>
      match device with
      | Some device =>
          if JS.truthyStr (name device) then setDevices (addDevice device) else ret tt
      | None => ret tt
      end
  end.

(** The callback scheduled by [startBLEScan]. *)
Definition onTimeout (callback : TimerCallback) : M unit :=
  match callback with
  | StopScan found =>
      perform StopDeviceScan ;;
      setScanning false ;;
      setStatusMsg ("Scan completed. Found " ++ JS.showNat found ++ " devices")
  end.

(** Lines 148-183 of [startBLEScan], reached when the adapter is on and
    the permissions are there; [view] is the render [startBLEScan] was
    called from. *)
Definition scanSession (env : Env) (view : AppState) : M unit :=
  setScanning true ;;
  setStatusMsg "Scanning for BLE devices..." ;;
  setDevices (fun _ => []) ;;
  (try
     (call StartDeviceScan (on_startDeviceScan env) ;;
      perform (SetTimeout (StopScan (List.length (devices view))) 10000))
   catch error =>
     (perform (ConsoleError "Scan failed:" (message error)) ;;
      setStatusMsg ("Scan failed: " ++ message error) ;;
      setScanning false)).

Definition startBLEScan (env : Env) : M unit :=
  view <- render ;;
  if negb (State_eqb (bluetoothState view) PoweredOn) then
    perform (AlertAlert "Bluetooth Error" "Please turn on Bluetooth")
  else
    hasPermissions <- checkPermissions env ;;
    if negb hasPermissions then
      granted <- requestPermissions env ;;
      if negb granted then setStatusMsg "Bluetooth permissions required"
      else scanSession env view
    else scanSession env view.

(** [data.key], throwing a [TypeError] on [null]. *)
Definition property (data : JS.Value) (key : string) : M JS.Value :=
  match JS.get data key with
  | Some v => ret v
  | None => throw {| message := "Cannot read properties of null" |}
  end.

(** The listener given to [characteristic.monitor]. *)
Definition onNotification (env : Env) (error : option Error)
    (characteristic : option Characteristic) : M unit :=
  match error with
  | Some error => perform (ConsoleError "Notification error:" (message error))
  | None =>
      match characteristic with
      | Some characteristic =>
          match value characteristic with
          | Some payload =>
              if negb (String.eqb payload "") then
                try
                  (data <- lift (JSON_parse env payload) ;;
                   temperature <- property data "temperature" ;;
                   present <- (if JS.truthy temperature then ret true
                               else humidity <- property data "humidity" ;;
                                    ret (JS.truthy humidity)) ;;
                   if (present : bool) then
                     setSensorData data ;;
                     setStatusMsg "Receiving sensor data..."
                   else ret tt)
                catch e => perform (ConsoleLog "Raw data received:" payload)
              else ret tt
          | None => ret tt
          end
      | None => ret tt
      end
  end.

(** Line 189 of [connectToDevice]: what runs before [device.connect()]
    is awaited. *)
Definition connecting (device : Device) : M unit :=
  setStatusMsg ("Connecting to " ++ JS.show (name device) ++ "...").

(** Lines 191-235: what runs once [device.connect()] has settled. *)
Definition connection (env : Env) (device : Device) : M unit :=
  connectedDevice <- call (Connect device) (on_connect env device) ;;
  discoveredDevice <- call (DiscoverAllServicesAndCharacteristics connectedDevice)
                           (on_discover env connectedDevice) ;;
  setSelectedDevice (Some discoveredDevice) ;;
  setConnected true ;;
  setStatusMsg ("Connected to " ++ JS.show (name device) ++ " - Discovering services...") ;;
  services <- call (Services discoveredDevice) (on_services env discoveredDevice) ;;
  for_of services (fun service =>
    characteristics <- call (Characteristics service) (on_characteristics env service) ;;
    for_of characteristics (fun characteristic =>
      if isNotifiable characteristic
      then call (Monitor characteristic) (on_monitor env characteristic)
      else ret tt)) ;;
  setStatusMsg ("Connected and monitoring " ++ JS.show (name device)).

(** Lines 238-240: the [catch] block. *)
Definition connectionFailed (error : Error) : M unit :=
  perform (ConsoleError "Connection failed:" (message error)) ;;
  setStatusMsg ("Connection failed: " ++ message error) ;;
  setConnected false.

Definition connectToDevice (env : Env) (device : Device) : M unit :=
  try (connecting device ;; connection env device)
  catch error => connectionFailed error.

(** [connectToDevice] from its first [await] on. *)
Definition connectToDevice_resumed (env : Env) (device : Device) : M unit :=
  try connection env device
  catch error => connectionFailed error.

Definition disconnectDevice (env : Env) : M unit :=
  view <- render ;;
  match selectedDevice view with
  | Some selected =>
      try
        (call (CancelConnection selected) (on_cancelConnection env selected) ;;
         setSelectedDevice None ;;
         setConnected false ;;
         setSensorData (JS.Object []) ;;
         setStatusMsg "Disconnected from device")
      catch error => perform (ConsoleError "Disconnect failed:" (message error))
  | None => ret tt
  end.

Definition readSensorData (env : Env) : M unit :=
  view <- render ;;
  match selectedDevice view with
  | None => ret tt
  | Some selected =>
      try
        (setStatusMsg "Reading sensor data..." ;;
         service <- call (Services selected) (on_services env selected) ;;
         setStatusMsg "Data read successfully")
      catch error =>
        (perform (ConsoleError "Read failed:" (message error)) ;;
         setStatusMsg "Failed to read data")
  end.

(** The condition of line 380 under which the render shows the "Sensor
    Readings" section: [connected && (sensorData.temperature !== undefined
    || sensorData.humidity !== undefined)]. *)
Definition isUndefined (v : option JS.Value) : bool :=
  match v with
  | Some JS.Undefined => true
  | _ => false
  end.

Definition showsSensorReadings (st : AppState) : bool :=
  connected st
  && (negb (isUndefined (JS.get (sensorData st) "temperature"))
      || negb (isUndefined (JS.get (sensorData st) "humidity"))).

(* ===================================================================== *)
(** ** The event loop *)
(* ===================================================================== *)

(** The component together with what the platform holds for it: the
    clock (in milliseconds), the pending [setTimeout] callbacks with the
    time they are due, the calls of [connectToDevice] waiting for
    [device.connect()], and every platform call made so far with its
    time. *)
Record World : Type := {
  app : AppState;
  now : Z;
  timers : list (Z * TimerCallback);
  connectingTo : list Device;
  trace : list (Z * LogEntry)
}.

Definition initialWorld : World :=
  {| app := initialState; now := 0; timers := []; connectingTo := []; trace := [] |}.

(** The timers a handler's log asks for, when it runs at time [t]. *)
Fixpoint scheduled (t : Z) (log : list LogEntry) : list (Z * TimerCallback) :=
  match log with
  | [] => []
  | Did (SetTimeout callback delay) :: rest => (t + delay, callback) :: scheduled t rest
  | _ :: rest => scheduled t rest
  end.

(** Run a handler to completion at the current time. *)
Definition run (m : M unit) (w : World) : World :=
  let r := m (app w) in
  {| app := state_of r;
     now := now w;
     timers := (timers w ++ scheduled (now w) (log_of r))%list;
     connectingTo := connectingTo w;
     trace := (trace w ++ map (pair (now w)) (log_of r))%list |}.

Definition option_string_eqb (a b : option string) : bool :=
  match a, b with
  | Some x, Some y => String.eqb x y
  | None, None => true
  | _, _ => false
  end.

Definition Device_eqb (a b : Device) : bool :=
  String.eqb (id a) (id b) && option_string_eqb (name a) (name b).

Fixpoint removeFirst (d : Device) (ds : list Device) : list Device :=
  match ds with
  | [] => []
  | x :: rest => if Device_eqb d x then rest else x :: removeFirst d rest
  end.

Inductive Event : Type :=
| Mounted (env : Env)
| AdapterState (state : State)
| PressScan (env : Env)
| ScanResult (error : option Error) (device : option Device)
| Timeout
| PressConnect (device : Device)
| ConnectSettled (env : Env) (device : Device)
| Notification (env : Env) (error : option Error) (characteristic : option Characteristic)
| PressDisconnect (env : Env)
| PressRead (env : Env)
| Elapse (ms : Z).

Definition didStart (entry : Z * LogEntry) : bool :=
  match snd entry with
  | Did StartDeviceScan => true
  | _ => false
  end.

Definition didMonitor (entry : Z * LogEntry) : bool :=
  match snd entry with
  | Did (Monitor _) => true
  | _ => false
  end.

Definition isSome {A} (o : option A) : bool :=
  match o with
  | Some _ => true
  | None => false
  end.

(** When an event can happen: a button can be pressed when it is rendered
    and not [disabled]; a listener is called once it is registered; the
    timer due first fires when the clock reaches it, and the clock does
    not pass a pending timer. *)
Definition enabled (ev : Event) (w : World) : bool :=
  match ev with
  | Mounted _ | AdapterState _ => true
  | PressScan _ =>
      negb (scanning (app w) || negb (State_eqb (bluetoothState (app w)) PoweredOn))
  | ScanResult _ _ => existsb didStart (trace w)
  | Timeout =>
      match timers w with
      | (due, _) :: _ => due =? now w
      | [] => false
      end
  | PressConnect device =>
      existsb (Device_eqb device) (devices (app w)) && negb (connected (app w))
  | ConnectSettled _ device => existsb (Device_eqb device) (connectingTo w)
  | Notification _ _ _ => existsb didMonitor (trace w)
  | PressDisconnect _ | PressRead _ =>
      connected (app w) && isSome (selectedDevice (app w))
  | Elapse ms => (0 <? ms) && forallb (fun timer => now w + ms <=? fst timer) (timers w)
  end.

(** One turn of the loop.  A handler runs to completion within its turn;
    [connectToDevice] takes two turns, one for the press (up to the
    [await] of [device.connect()]) and one for what follows once that
    promise has settled, so that other events can come in between. *)
Definition step (ev : Event) (w : World) : World :=
  match ev with
  | Mounted env => run (onMount env) w
  | AdapterState state => run (onStateChange state) w
  | PressScan env => run (startBLEScan env) w
  | ScanResult error device => run (onScanResult error device) w
  | Timeout =>
      match timers w with
      | (_, callback) :: rest =>
          run (onTimeout callback)
              {| app := app w; now := now w; timers := rest;
                 connectingTo := connectingTo w; trace := trace w |}
      | [] => w
      end
  | PressConnect device =>
      let w' := run (connecting device) w in
      {| app := app w'; now := now w'; timers := timers w';
         connectingTo := (connectingTo w' ++ [device])%list; trace := trace w' |}
  | ConnectSettled env device =>
      run (connectToDevice_resumed env device)
          {| app := app w; now := now w; timers := timers w;
             connectingTo := removeFirst device (connectingTo w); trace := trace w |}
  | Notification env error characteristic =>
      run (onNotification env error characteristic) w
  | PressDisconnect env => run (disconnectDevice env) w
  | PressRead env => run (readSensorData env) w
  | Elapse ms =>
      {| app := app w; now := now w + ms; timers := timers w;
         connectingTo := connectingTo w; trace := trace w |}
  end.

Fixpoint exec (evs : list Event) (w : World) : option World :=
  match evs with
  | [] => Some w
  | ev :: rest => if enabled ev w then exec rest (step ev w) else None
  end.

Definition Reachable (w : World) : Prop :=
  exists evs, exec evs initialWorld = Some w.

(** The connections the component has opened and not cancelled, by
    device identifier, after the calls of a trace. *)
Fixpoint held (tr : list (Z * LogEntry)) (links : list string) : list string :=
  match tr with
  | [] => links
  | (_, Did (Connect d)) :: rest =>
      held rest (if existsb (String.eqb (id d)) links then links else links ++ [id d])%list
  | (_, Did (CancelConnection d)) :: rest =>
      held rest (filter (fun i => negb (String.eqb (id d) i)) links)
  | _ :: rest => held rest links
  end.

(** The scan sessions a trace has stopped: start time and stop time.
    [current] is the start of the session in progress, if any. *)
Fixpoint stoppedSessions (tr : list (Z * LogEntry)) (current : option Z) : list (Z * Z) :=
  match tr with
  | [] => []
  | (t, Did StartDeviceScan) :: rest => stoppedSessions rest (Some t)
  | (t, Did StopDeviceScan) :: rest =>
      match current with
      | Some s => (s, t) :: stoppedSessions rest None
      | None => stoppedSessions rest None
      end
  | _ :: rest => stoppedSessions rest current
  end.

(** The scan-result callbacks of one session, in order. *)
Fixpoint scanResults (results : list (option Error * option Device)) (st : AppState) : AppState :=
  match results with
  | [] => st
  | (error, device) :: rest => scanResults rest (state_of (onScanResult error device st))
  end.

(** No two entries with the same identifier, and every entry named. *)
Definition wellFormedDevices (ds : list Device) : Prop :=
  NoDup (map id ds) /\ Forall (fun d => JS.truthyStr (name d) = true) ds.

(* ===================================================================== *)
(** ** Predicates on handlers *)
(* ===================================================================== *)

(** Every call the handler logs satisfies [P]. *)
Definition logs {A} (P : LogEntry -> Prop) (m : M A) : Prop :=
  forall st, Forall P (log_of (m st)).

(** The handler leaves the part [f] of the state as it found it. *)
Definition preserves {A X} (f : AppState -> X) (m : M A) : Prop :=
  forall st, f (state_of (m st)) = f st.

Definition went (entry : LogEntry) : Prop :=
  match entry with
  | Did _ => True
  | Failed _ => False
  end.

(** A handler that makes no call after one that failed: when it returns,
    every call it made went well; when it throws, the failed call is the
    last one it made. *)
Definition stopsAtFailure {A} (m : M A) : Prop :=
  forall st,
    match result_of (m st) with
    | Resolved _ => Forall went (log_of (m st))
    | Rejected _ =>
        exists calls e, log_of (m st) = (calls ++ [Failed e])%list /\ Forall went calls
    end.

(** Calls that start or stop a scan or schedule a callback. *)
Definition scanCall (entry : LogEntry) : Prop :=
  match entry with
  | Did StartDeviceScan | Did StopDeviceScan | Did (SetTimeout _ _) => True
  | _ => False
  end.

(** Calls to [device.connect()]. *)
Definition connectCall (entry : LogEntry) : bool :=
  match entry with
  | Did (Connect _) | Failed (Connect _) => true
  | _ => false
  end.

(** Calls to [device.cancelConnection()]. *)
Definition cancelCall (entry : LogEntry) : Prop :=
  match entry with
  | Did (CancelConnection _) | Failed (CancelConnection _) => True
  | _ => False
  end.

(** Calls to [bleManager.startDeviceScan]. *)
Definition startCall (entry : LogEntry) : Prop :=
  match entry with
  | Did StartDeviceScan | Failed StartDeviceScan => True
  | _ => False
  end.

(** Calls made while checking or requesting permissions. *)
Definition permissionCall (entry : LogEntry) : Prop :=
  match entry with
  | Did (Check _) | Failed (Check _)
  | Did (RequestMultiple _) | Failed (RequestMultiple _)
  | Did (ConsoleWarn _ _) | Did (AlertAlert _ _) => True
  | _ => False
  end.

(** The state cells after lines 148-150 of [startBLEScan]. *)
Definition scanningState (st : AppState) : AppState :=
  with_devices [] (with_statusMsg "Scanning for BLE devices..." (with_scanning true st)).

(** The state cells after lines 222-223 of the notification listener. *)
Definition received (data : JS.Value) (st : AppState) : AppState :=
  with_statusMsg "Receiving sensor data..." (with_sensorData data st).

(** Calls that are neither [connect] nor [cancelConnection]. *)
Definition neitherConnectNorCancel (entry : LogEntry) : Prop :=
  connectCall entry = false /\ ~ cancelCall entry.

(** What ties the pending callbacks to the scans that were started: a
    pending callback is not overdue and was scheduled by a scan started
    10000 ms before it is due; every [stopDeviceScan] comes 10000 ms after
    a [startDeviceScan]; and every started scan has its callback, pending
    or fired. *)
Definition scanInvariant (w : World) : Prop :=
  (forall due callback, In (due, callback) (timers w) ->
     now w <= due /\ In (due - 10000, Did StartDeviceScan) (trace w))
  /\ (forall t, In (t, Did StopDeviceScan) (trace w) ->
        In (t - 10000, Did StartDeviceScan) (trace w))
  /\ (forall s, In (s, Did StartDeviceScan) (trace w) ->
        (exists callback, In (s + 10000, callback) (timers w))
        \/ In (s + 10000, Did StopDeviceScan) (trace w)).

(** Calls that neither start nor stop a scan nor schedule a callback. *)
Definition quiet (entry : LogEntry) : Prop := ~ scanCall entry.

(** The handler put a new text on the status line. *)
Definition statusSurfaced (before after : AppState) : Prop :=
  statusMsg after <> statusMsg before.

(** Calls to [PermissionsAndroid.requestMultiple], the permission dialog. *)
Definition requestCall (entry : LogEntry) : Prop :=
  match entry with
  | Did (RequestMultiple _) | Failed (RequestMultiple _) => True
  | _ => False
  end.

(** Line 338: the text of a device card, [device.name || 'Unknown Device']. *)
Definition deviceLabel (d : Device) : string :=
  if JS.truthyStr (name d) then JS.show (name d) else "Unknown Device".

(** The calls made by the two loops of [connectToDevice] when none of
    them fails: for each service its [characteristics()], then a
    [monitor] for each of its notifiable characteristics. *)
Definition subscriptions (found : Service -> list Characteristic)
    (services : list Service) : list LogEntry :=
  flat_map (fun service =>
              Did (Characteristics service)
              :: map (fun c => Did (Monitor c)) (filter isNotifiable (found service)))
           services.

(** A logged [stopDeviceScan]. *)
Definition didStop (entry : Z * LogEntry) : bool :=
  match snd entry with
  | Did StopDeviceScan => true
  | _ => false
  end.

(* ===================================================================== *)
(** ** Sample platforms and peripherals *)
(* ===================================================================== *)

Module Sample.

Definition sensor : Device := {| id := "AA:BB:CC:DD:EE:01"; name := Some "ESP32-Sensor" |}.
Definition other : Device := {| id := "AA:BB:CC:DD:EE:02"; name := Some "ESP32-Other" |}.
Definition unnamed : Device := {| id := "AA:BB:CC:DD:EE:03"; name := None |}.

Definition environmental : Service := {| serviceUUID := "181a" |}.

Definition quote : string := String (ascii_of_nat 34) "".

(** The text [{"temperature":0}]. *)
Definition zeroPayload : string := "{" ++ quote ++ "temperature" ++ quote ++ ":0}".

(** The text [{"temperature":21.5}]. *)
Definition warmPayload : string := "{" ++ quote ++ "temperature" ++ quote ++ ":21.5}".

Definition reading (payload : string) : Characteristic :=
  {| uuid := "2a6e"; isNotifiable := true; value := Some payload |}.

(** [JSON.parse] on the payloads used below. *)
Definition parse (s : string) : Outcome JS.Value :=
  if String.eqb s zeroPayload then
    Resolved (JS.Object [("temperature", JS.Number 0%float)])
  else if String.eqb s warmPayload then
    Resolved (JS.Object [("temperature", JS.Number 21.5%float)])
  else Rejected {| message := "Unexpected token" |}.

Definition answer {A} (e : Effect) (fails : Effect -> option Error) (a : A) : Outcome A :=
  match fails e with
  | Some err => Rejected err
  | None => Resolved a
  end.

(** An Android platform of the given API level on which the user answers
    the permission dialog by [decide], the permissions held beforehand are
    [holds], and the calls picked by [fails] are rejected. *)
Definition platform (version : Z) (holds : Permission -> bool)
    (decide : Permission -> PermissionStatus) (fails : Effect -> option Error) : Env :=
  {| Platform_OS := android;
     Platform_Version := version;
     on_check := fun p => answer (Check p) fails (holds p);
     on_requestMultiple := fun ps =>
       answer (RequestMultiple ps) fails (map (fun p => (p, decide p)) ps);
     on_startDeviceScan := answer StartDeviceScan fails tt;
     on_connect := fun d => answer (Connect d) fails d;
     on_discover := fun d => answer (DiscoverAllServicesAndCharacteristics d) fails d;
     on_services := fun d => answer (Services d) fails [environmental];
     on_characteristics := fun s => answer (Characteristics s) fails [reading warmPayload];
     on_monitor := fun c => answer (Monitor c) fails tt;
     on_cancelConnection := fun d => answer (CancelConnection d) fails tt;
     JSON_parse := parse |}.

Definition nothingFails (e : Effect) : option Error := None.

(** Android 13, every permission held, every call succeeds. *)
Definition healthy : Env :=
  platform 33 (fun _ => true) (fun _ => GRANTED) nothingFails.

(** Android 13 where the user refuses [BLUETOOTH_SCAN]. *)
Definition refusing : Env :=
  platform 33 (fun _ => false)
    (fun p => match p with BLUETOOTH_SCAN => DENIED | _ => GRANTED end) nothingFails.

(** [cancelConnection] is rejected. *)
Definition stuck : Env :=
  platform 33 (fun _ => true) (fun _ => GRANTED)
    (fun e => match e with
              | CancelConnection _ => Some {| message := "Operation was cancelled" |}
              | _ => None
              end).

(** [startDeviceScan] throws. *)
Definition jammed : Env :=
  platform 33 (fun _ => true) (fun _ => GRANTED)
    (fun e => match e with
              | StartDeviceScan => Some {| message := "BluetoothLE is unsupported" |}
              | _ => None
              end).

(** Service discovery is rejected after [connect()] has resolved. *)
Definition flaky : Env :=
  platform 33 (fun _ => true) (fun _ => GRANTED)
    (fun e => match e with
              | DiscoverAllServicesAndCharacteristics _ =>
                  Some {| message := "Operation timed out" |}
              | _ => None
              end).

(** The state after a successful connection to [sensor]. *)
Definition monitoring : AppState :=
  state_of (connectToDevice healthy sensor
              (with_devices [sensor] (with_bluetoothState PoweredOn initialState))).

(** Two presses of Connect, on two devices, before either
    [device.connect()] has settled. *)
Definition twoTaps : list Event :=
  [AdapterState PoweredOn; PressScan healthy;
   ScanResult None (Some sensor); ScanResult None (Some other);
   PressConnect sensor; PressConnect other;
   ConnectSettled healthy sensor; ConnectSettled healthy other].

(** A scan that fails after one second, and a second scan started one
    second later, while the first scan's callback is still pending. *)
Definition rescan : list Event :=
  [AdapterState PoweredOn; PressScan healthy; Elapse 1000;
   ScanResult (Some {| message := "Location services are disabled" |}) None;
   Elapse 1000; PressScan healthy; Elapse 8000; Timeout].

(** Android 11: below API level 31, only the location permissions are
    looked at; here the Bluetooth ones would not be held. *)
Definition oldAndroid : Env :=
  platform 30
    (fun p => match p with
              | ACCESS_FINE_LOCATION | ACCESS_COARSE_LOCATION => true
              | _ => false
              end)
    (fun _ => GRANTED) nothingFails.

(** The check of [ACCESS_COARSE_LOCATION] is rejected. *)
Definition checkFails : Env :=
  platform 33 (fun _ => true) (fun _ => GRANTED)
    (fun e => match e with
              | Check ACCESS_COARSE_LOCATION => Some {| message := "Activity is null" |}
              | _ => None
              end).

(** An iPhone: the same answers as [healthy], on iOS. *)
Definition iPhone : Env :=
  {| Platform_OS := ios;
     Platform_Version := 17;
     on_check := on_check healthy;
     on_requestMultiple := on_requestMultiple healthy;
     on_startDeviceScan := on_startDeviceScan healthy;
     on_connect := on_connect healthy;
     on_discover := on_discover healthy;
     on_services := on_services healthy;
     on_characteristics := on_characteristics healthy;
     on_monitor := on_monitor healthy;
     on_cancelConnection := on_cancelConnection healthy;
     JSON_parse := parse |}.

(** [services()] is rejected after [connect()] and the discovery have
    resolved. *)
Definition servicesFail : Env :=
  platform 33 (fun _ => true) (fun _ => GRANTED)
    (fun e => match e with
              | Services _ => Some {| message := "Device is not connected" |}
              | _ => None
              end).

(** [JSON.parse] on payloads that are not objects. *)
Definition parseScalar (s : string) : Outcome JS.Value :=
  if String.eqb s "null" then Resolved JS.Null
  else if String.eqb s "21.5" then Resolved (JS.Number 21.5%float)
  else Rejected {| message := "Unexpected token" |}.

(** [healthy], answering the payloads above. *)
Definition scalars : Env :=
  {| Platform_OS := android;
     Platform_Version := 33;
     on_check := on_check healthy;
     on_requestMultiple := on_requestMultiple healthy;
     on_startDeviceScan := on_startDeviceScan healthy;
     on_connect := on_connect healthy;
     on_discover := on_discover healthy;
     on_services := on_services healthy;
     on_characteristics := on_characteristics healthy;
     on_monitor := on_monitor healthy;
     on_cancelConnection := on_cancelConnection healthy;
     JSON_parse := parseScalar |}.

End Sample.

(* ===================================================================== *)
(** ** Reasoning about handlers *)
(* ===================================================================== *)

(** Name the three components of a run. *)
Ltac run_of m st r s l :=
  destruct (m st) as [[r s] l] eqn:?.

Section LogsLemmas.

Context (P : LogEntry -> Prop).

Lemma logs_ret {A} (a : A) : logs P (ret a).
Proof. intros st; constructor. Qed.

Lemma logs_throw {A} (e : Error) : logs P (@throw A e).
Proof. intros st; constructor. Qed.

Lemma logs_lift {A} (o : Outcome A) : logs P (lift o).
Proof. intros st; constructor. Qed.

Lemma logs_render : logs P render.
Proof. intros st; constructor. Qed.

Lemma logs_modify f : logs P (modify f).
Proof. intros st; constructor. Qed.

Lemma logs_call {A} e (o : Outcome A) : P (Did e) -> P (Failed e) -> logs P (call e o).
Proof.
  intros Hd Hf st; unfold call, log_of; simpl.
  constructor; [destruct o; assumption | constructor].
Qed.

Lemma logs_perform e : P (Did e) -> logs P (perform e).
Proof. intros Hd st; unfold perform, call, log_of; simpl; auto. Qed.

Lemma logs_bind {A B} (m : M A) (k : A -> M B) :
  logs P m -> (forall a, logs P (k a)) -> logs P (bind m k).
Proof.
  intros Hm Hk st. specialize (Hm st). unfold bind, log_of in *.
  run_of m st r s l; simpl in Hm. destruct r as [a|e]; [|exact Hm].
  specialize (Hk a s). run_of (k a) s r2 s2 l2; simpl in *.
  apply Forall_app; split; assumption.
Qed.

Lemma logs_try {A} (m : M A) (h : Error -> M A) :
  logs P m -> (forall e, logs P (h e)) -> logs P (try_catch m h).
Proof.
  intros Hm Hh st. specialize (Hm st). unfold try_catch, log_of in *.
  run_of m st r s l; simpl in Hm. destruct r as [a|e]; [exact Hm|].
  specialize (Hh e s). run_of (h e) s r2 s2 l2; simpl in *.
  apply Forall_app; split; assumption.
Qed.

Lemma logs_for_of {A} (xs : list A) (body : A -> M unit) :
  (forall x, logs P (body x)) -> logs P (for_of xs body).
Proof.
  intros Hb. induction xs as [|x rest IH]; simpl.
  - apply logs_ret.
  - apply logs_bind; [apply Hb | intros _; exact IH].
Qed.

End LogsLemmas.

Section PreservesLemmas.

Context {X : Type} (f : AppState -> X).

Lemma preserves_ret {A} (a : A) : preserves f (ret a).
Proof. intros st; reflexivity. Qed.

Lemma preserves_throw {A} (e : Error) : preserves f (@throw A e).
Proof. intros st; reflexivity. Qed.

Lemma preserves_lift {A} (o : Outcome A) : preserves f (lift o).
Proof. intros st; reflexivity. Qed.

Lemma preserves_render : preserves f render.
Proof. intros st; reflexivity. Qed.

Lemma preserves_call {A} e (o : Outcome A) : preserves f (call e o).
Proof. intros st; reflexivity. Qed.

Lemma preserves_perform e : preserves f (perform e).
Proof. intros st; reflexivity. Qed.

Lemma preserves_modify g : (forall st, f (g st) = f st) -> preserves f (modify g).
Proof. intros Hg st; apply Hg. Qed.

Lemma preserves_bind {A B} (m : M A) (k : A -> M B) :
  preserves f m -> (forall a, preserves f (k a)) -> preserves f (bind m k).
Proof.
  intros Hm Hk st. specialize (Hm st). unfold bind, state_of in *.
  run_of m st r s l; simpl in Hm. destruct r as [a|e]; [|exact Hm].
  specialize (Hk a s). run_of (k a) s r2 s2 l2.
  unfold state_of in Hk; simpl in *. congruence.
Qed.

Lemma preserves_try {A} (m : M A) (h : Error -> M A) :
  preserves f m -> (forall e, preserves f (h e)) -> preserves f (try_catch m h).
Proof.
  intros Hm Hh st. specialize (Hm st). unfold try_catch, state_of in *.
  run_of m st r s l; simpl in Hm. destruct r as [a|e]; [exact Hm|].
  specialize (Hh e s). run_of (h e) s r2 s2 l2.
  unfold state_of in Hh; simpl in *. congruence.
Qed.

Lemma preserves_for_of {A} (xs : list A) (body : A -> M unit) :
  (forall x, preserves f (body x)) -> preserves f (for_of xs body).
Proof.
  intros Hb. induction xs as [|x rest IH]; simpl.
  - apply preserves_ret.
  - apply preserves_bind; [apply Hb | intros _; exact IH].
Qed.

End PreservesLemmas.

(** Decompose a handler along its syntax; what is left are the calls and
    the state writes. *)
Ltac handler_step :=
  first
    [ apply logs_bind; [|intro] | apply logs_try; [|intro] | apply logs_for_of; intro
    | apply logs_ret | apply logs_throw | apply logs_lift | apply logs_render
    | apply logs_modify
    | apply preserves_bind; [|intro] | apply preserves_try; [|intro]
    | apply preserves_for_of; intro
    | apply preserves_ret | apply preserves_throw | apply preserves_lift
    | apply preserves_render | apply preserves_call | apply preserves_perform
    | apply preserves_modify; intro; reflexivity
    | apply logs_call; simpl; tauto
    | apply logs_perform; simpl; tauto ].

Ltac handler_cases :=
  match goal with
  | |- context [match ?x with _ => _ end] => destruct x
  | |- context [if ?b then _ else _] => destruct b
  end.

Ltac handler := repeat (repeat handler_step; try handler_cases).

(** Equations for the first step of a handler. *)
Lemma bind_call_resolved {A B} e (a : A) (k : A -> M B) st :
  bind (call e (Resolved a)) k st
  = (result_of (k a st), state_of (k a st), Did e :: log_of (k a st)).
Proof. unfold bind, call. destruct (k a st) as [[r s] l]. reflexivity. Qed.

Lemma bind_call_rejected {A B} e err (k : A -> M B) st :
  bind (call e (Rejected err)) k st = (Rejected err, st, [Failed e]).
Proof. reflexivity. Qed.

Lemma state_of_triple {A} (r : Outcome A) s l : state_of (r, s, l) = s.
Proof. reflexivity. Qed.

Lemma bind_ret {A B} (a : A) (k : A -> M B) st : bind (ret a) k st = k a st.
Proof. unfold bind, ret. destruct (k a st) as [[r s] l]. reflexivity. Qed.

Lemma bind_modify {B} f (k : unit -> M B) st : bind (modify f) k st = k tt (f st).
Proof. unfold bind, modify. destruct (k tt (f st)) as [[r s] l]. reflexivity. Qed.

(* ===================================================================== *)
(** ** The adapter-state listener and the manual read *)
(* ===================================================================== *)

(** C9: when the adapter state changes to [PoweredOff] the connection flag
    becomes false and the selected device null; any other adapter state
    leaves both as they were; the sensor snapshot is never touched by the
    listener. *)
Theorem onStateChange_frame (state : State) (st : AppState) :
  let st' := state_of (onStateChange state st) in
  sensorData st' = sensorData st
  /\ (state = PoweredOff -> connected st' = false /\ selectedDevice st' = None)
  /\ (state <> PoweredOff ->
      connected st' = connected st /\ selectedDevice st' = selectedDevice st).
Proof.
  destruct state; cbn; (split; [reflexivity|]); split; intros H;
    try discriminate H; try (split; reflexivity);
    exfalso; apply H; reflexivity.
Qed.

Lemma onStateChange_frame_witness :
  let st' := state_of (onStateChange PoweredOff Sample.monitoring) in
  let st'' := state_of (onStateChange Unauthorized Sample.monitoring) in
  (connected st' = false /\ selectedDevice st' = None)
  /\ (connected st'' = true /\ selectedDevice st'' = Some Sample.sensor).
Proof.
  split.
  - apply (onStateChange_frame PoweredOff Sample.monitoring). reflexivity.
  - apply (onStateChange_frame Unauthorized Sample.monitoring). discriminate.
Defined.

Lemma readSensorData_preserves {X} (f : AppState -> X) env :
  (forall s st, f (with_statusMsg s st) = f st) -> preserves f (readSensorData env).
Proof.
  intros Hf. unfold readSensorData.
  apply preserves_bind; [apply preserves_render|]. intros view.
  destruct (selectedDevice view); [|apply preserves_ret].
  apply preserves_try; [|intros e].
  - apply preserves_bind; [apply preserves_modify; intros; apply Hf|]. intros _.
    apply preserves_bind; [apply preserves_call|]. intros _.
    apply preserves_modify; intros; apply Hf.
  - apply preserves_bind; [apply preserves_perform|]. intros _.
    apply preserves_modify; intros; apply Hf.
Qed.

(** C10: [readSensorData] never changes the sensor snapshot, the connection
    flag or the selected device.  With no device selected it changes
    nothing and calls nothing; otherwise the status message is the only
    cell it writes, and when [services()] resolves it ends on the success
    message having made that one call and read no characteristic. *)
Theorem readSensorData_frame (env : Env) (st : AppState) :
  let r := readSensorData env st in
  sensorData (state_of r) = sensorData st
  /\ connected (state_of r) = connected st
  /\ selectedDevice (state_of r) = selectedDevice st
  /\ (selectedDevice st = None -> state_of r = st /\ log_of r = [])
  /\ (forall d, selectedDevice st = Some d ->
        state_of r = with_statusMsg (statusMsg (state_of r)) st
        /\ (forall found, on_services env d = Resolved found ->
              statusMsg (state_of r) = "Data read successfully"
              /\ log_of r = [Did (Services d)])).
Proof.
  cbv zeta. repeat split.
  - apply (readSensorData_preserves sensorData); reflexivity.
  - apply (readSensorData_preserves connected); reflexivity.
  - apply (readSensorData_preserves selectedDevice); reflexivity.
  - unfold readSensorData, bind, render, state_of; simpl. rewrite H. reflexivity.
  - unfold readSensorData, bind, render, log_of; simpl. rewrite H. reflexivity.
  - unfold readSensorData, bind, render, state_of; simpl. rewrite H.
    unfold try_catch, bind, call, perform, setStatusMsg, modify; simpl.
    destruct (on_services env d); reflexivity.
  - unfold readSensorData, bind, render, state_of; simpl. rewrite H.
    unfold try_catch, bind, call, perform, setStatusMsg, modify; simpl.
    rewrite H0. reflexivity.
  - unfold readSensorData, bind, render, log_of; simpl. rewrite H.
    unfold try_catch, bind, call, perform, setStatusMsg, modify; simpl.
    rewrite H0. reflexivity.
Qed.

Lemma readSensorData_frame_witness :
  statusMsg (state_of (readSensorData Sample.healthy Sample.monitoring))
  = "Data read successfully"
  /\ state_of (readSensorData Sample.healthy initialState) = initialState.
Proof.
  pose proof (readSensorData_frame Sample.healthy Sample.monitoring) as Hsel.
  pose proof (readSensorData_frame Sample.healthy initialState) as Hnone.
  cbv zeta in Hsel, Hnone.
  destruct Hsel as (_ & _ & _ & _ & Hsel).
  destruct Hnone as (_ & _ & _ & Hnone & _).
  split.
  - destruct (Hsel Sample.sensor eq_refl) as [_ Hok].
    apply (Hok [Sample.environmental]). reflexivity.
  - apply Hnone. reflexivity.
Defined.

(* ===================================================================== *)
(** ** The permission gate *)
(* ===================================================================== *)

Ltac unfold_handler :=
  unfold bind, try_catch, call, perform, lift, throw, ret, render, modify,
    setSensorData, setConnected, setStatusMsg, setBluetoothState, setScanning,
    setDevices, setSelectedDevice, setPermissionsGranted,
    state_of, log_of, result_of in *.

Lemma checkPermissions_run env st :
  exists b l, checkPermissions env st = (Resolved b, st, l) /\ Forall permissionCall l.
Proof.
  unfold checkPermissions. destruct (Platform_OS env);
    try (exists true, []; split; [reflexivity | constructor]).
  unfold_handler.
  destruct (on_check env ACCESS_FINE_LOCATION);
    destruct (on_check env ACCESS_COARSE_LOCATION);
    destruct (31 <=? Platform_Version env);
    destruct (on_check env BLUETOOTH_SCAN);
    destruct (on_check env BLUETOOTH_CONNECT);
    simpl; eexists; eexists; (split; [reflexivity | repeat constructor]).
Qed.

Lemma requestPermissions_run env st :
  exists b l, requestPermissions env st = (Resolved b, st, l) /\ Forall permissionCall l.
Proof.
  unfold requestPermissions. destruct (Platform_OS env);
    try (exists true, []; split; [reflexivity | constructor]).
  unfold_handler.
  destruct (on_requestMultiple env (requestedPermissions (Platform_Version env)))
    as [granted|err]; simpl.
  - destruct (forallb (fun entry => isGranted (snd entry)) granted); simpl;
      eexists; eexists; (split; [reflexivity | repeat constructor]).
  - eexists; eexists; (split; [reflexivity | repeat constructor]).
Qed.

(** What [checkPermissions] returns on Android when every check resolves. *)
Lemma checkPermissions_android env st fine coarse scan conn :
  Platform_OS env = android ->
  on_check env ACCESS_FINE_LOCATION = Resolved fine ->
  on_check env ACCESS_COARSE_LOCATION = Resolved coarse ->
  on_check env BLUETOOTH_SCAN = Resolved scan ->
  on_check env BLUETOOTH_CONNECT = Resolved conn ->
  result_of (checkPermissions env st)
  = Resolved (fine && coarse
              && (if 31 <=? Platform_Version env then scan && conn else true)).
Proof.
  intros Hos Hf Hc Hs Hn. unfold checkPermissions. rewrite Hos.
  unfold_handler. rewrite Hf, Hc. simpl.
  destruct (31 <=? Platform_Version env); simpl.
  - rewrite Hs, Hn. simpl. now rewrite andb_assoc.
  - now rewrite !andb_true_r.
Qed.

Lemma requestedPermissions_spec version p :
  In p (requestedPermissions version) <->
  p = ACCESS_FINE_LOCATION \/ p = ACCESS_COARSE_LOCATION
  \/ (31 <= version /\ (p = BLUETOOTH_SCAN \/ p = BLUETOOTH_CONNECT)).
Proof.
  unfold requestedPermissions. destruct (Z.leb_spec 31 version); simpl; split.
  - intros [<-|[<-|[<-|[<-|[]]]]]; auto.
  - intros [->|[->|[_ [->| ->]]]]; auto.
  - intros [<-|[<-|[]]]; auto.
  - intros [->|[->|[Hv _]]]; auto. lia.
Qed.

Lemma requestedPermissions_NoDup version : NoDup (requestedPermissions version).
Proof.
  unfold requestedPermissions. destruct (31 <=? version); simpl;
    repeat (constructor; [simpl; intuition discriminate|]); constructor.
Qed.

(** In an object whose keys are distinct, a key has one value. *)
Lemma entry_unique {K V} (l : list (K * V)) k v v' :
  NoDup (map fst l) -> In (k, v) l -> In (k, v') l -> v = v'.
Proof.
  induction l as [|[k0 v0] l IH]; simpl; [intros _ []|].
  intros Hnd [H1|H1] [H2|H2]; inversion Hnd as [|? ? Hnotin Hnd']; subst.
  - congruence.
  - inversion H1; subst. exfalso. apply Hnotin.
    change k with (fst (k, v')). now apply in_map.
  - inversion H2; subst. exfalso. apply Hnotin.
    change k with (fst (k, v)). now apply in_map.
  - now apply IH.
Qed.

(** C6: on Android, once the permission dialog has answered for the
    requested permissions (fine and coarse location, and from API level 31
    also Bluetooth scan and connect), [requestPermissions] returns [true]
    exactly when every requested permission is granted, and [false] as
    soon as one of them is not. *)
Theorem requestPermissions_all_or_nothing (env : Env) (st : AppState)
    (granted : list (Permission * PermissionStatus)) :
  Platform_OS env = android ->
  on_requestMultiple env (requestedPermissions (Platform_Version env)) = Resolved granted ->
  map fst granted = requestedPermissions (Platform_Version env) ->
  let answer := result_of (requestPermissions env st) in
  (answer = Resolved true <->
   forall p, In p (requestedPermissions (Platform_Version env)) -> In (p, GRANTED) granted)
  /\ (forall p s, In p (requestedPermissions (Platform_Version env)) ->
        In (p, s) granted -> s <> GRANTED -> answer = Resolved false)
  /\ (forall p, In p (requestedPermissions (Platform_Version env)) <->
        p = ACCESS_FINE_LOCATION \/ p = ACCESS_COARSE_LOCATION
        \/ (31 <= Platform_Version env /\ (p = BLUETOOTH_SCAN \/ p = BLUETOOTH_CONNECT))).
Proof.
  intros Hos Hreq Hkeys answer.
  assert (Hnd : NoDup (map fst granted))
    by (rewrite Hkeys; apply requestedPermissions_NoDup).
  assert (Hanswer : answer
            = Resolved (forallb (fun entry => isGranted (snd entry)) granted)).
  { unfold answer, requestPermissions. rewrite Hos. unfold_handler. rewrite Hreq.
    simpl. destruct (forallb _ granted); reflexivity. }
  assert (Hall : forallb (fun entry => isGranted (snd entry)) granted = true <->
                 forall p, In p (requestedPermissions (Platform_Version env)) ->
                           In (p, GRANTED) granted).
  { rewrite forallb_forall, <- Hkeys. split.
    - intros Hg p Hp. apply in_map_iff in Hp as [[p' s] [<- Hin]].
      specialize (Hg _ Hin). simpl in *. destruct s; try discriminate. exact Hin.
    - intros Hg [p s] Hin. simpl.
      assert (Hp : In p (map fst granted))
        by (change p with (fst (p, s)); now apply in_map).
      rewrite (entry_unique granted p s GRANTED Hnd Hin (Hg p Hp)). reflexivity. }
  split; [|split].
  - rewrite Hanswer. rewrite <- Hall. split; [congruence | intros ->; reflexivity].
  - intros p s Hp Hin Hs. rewrite Hanswer. f_equal.
    destruct (forallb _ granted) eqn:Hfa; [|reflexivity].
    exfalso. apply Hs.
    exact (entry_unique granted p s GRANTED Hnd Hin (proj1 Hall eq_refl p Hp)).
  - apply requestedPermissions_spec.
Qed.

Lemma requestPermissions_all_or_nothing_witness :
  result_of (requestPermissions Sample.refusing initialState) = Resolved false.
Proof.
  refine (proj1 (proj2 (requestPermissions_all_or_nothing Sample.refusing initialState
            (map (fun p => (p, match p with BLUETOOTH_SCAN => DENIED | _ => GRANTED end))
                 (requestedPermissions 33))
            eq_refl eq_refl eq_refl)) BLUETOOTH_SCAN DENIED _ _ _).
  - simpl; tauto.
  - simpl; tauto.
  - discriminate.
Defined.

Lemma requestPermissions_elsewhere env st :
  Platform_OS env <> android -> requestPermissions env st = (Resolved true, st, []).
Proof.
  intros Hos. unfold requestPermissions.
  destruct (Platform_OS env); [contradiction | reflexivity | reflexivity].
Qed.

Lemma requestPermissions_rejected env st err :
  Platform_OS env = android ->
  on_requestMultiple env (requestedPermissions (Platform_Version env)) = Rejected err ->
  result_of (requestPermissions env st) = Resolved false.
Proof.
  intros Hos Hreq. unfold requestPermissions. rewrite Hos.
  unfold_handler. rewrite Hreq. reflexivity.
Qed.

(* ===================================================================== *)
(** ** Starting a scan *)
(* ===================================================================== *)

Lemma State_eqb_eq a b : State_eqb a b = true <-> a = b.
Proof. destruct a, b; simpl; split; congruence. Qed.

Lemma permissionCall_not_start entry : permissionCall entry -> ~ startCall entry.
Proof. destruct entry as [[]|[]]; simpl; tauto. Qed.

Lemma permissionCall_not_scan entry : permissionCall entry -> ~ scanCall entry.
Proof. destruct entry as [[]|[]]; simpl; tauto. Qed.

Lemma scanSession_run env view st :
  scanSession env view st =
  match on_startDeviceScan env with
  | Resolved _ =>
      (Resolved tt, scanningState st,
       [Did StartDeviceScan; Did (SetTimeout (StopScan (List.length (devices view))) 10000)])
  | Rejected e =>
      (Resolved tt,
       with_scanning false (with_statusMsg ("Scan failed: " ++ message e) (scanningState st)),
       [Failed StartDeviceScan; Did (ConsoleError "Scan failed:" (message e))])
  end.
Proof.
  unfold scanSession. unfold_handler.
  destruct (on_startDeviceScan env) as [[]|e]; reflexivity.
Qed.

(** The three ways [startBLEScan] can go. *)
Lemma startBLEScan_cases env st :
  exists pre, Forall permissionCall pre /\
    ((bluetoothState st <> PoweredOn
      /\ startBLEScan env st = (Resolved tt, st, pre))
     \/ (bluetoothState st = PoweredOn
         /\ result_of (checkPermissions env st) = Resolved false
         /\ result_of (requestPermissions env st) = Resolved false
         /\ startBLEScan env st
            = (Resolved tt, with_statusMsg "Bluetooth permissions required" st, pre))
     \/ (bluetoothState st = PoweredOn
         /\ (result_of (checkPermissions env st) = Resolved true
             \/ result_of (requestPermissions env st) = Resolved true)
         /\ startBLEScan env st
            = (Resolved tt, state_of (scanSession env st st),
               (pre ++ log_of (scanSession env st st))%list))).
Proof.
  unfold startBLEScan.
  destruct (checkPermissions_run env st) as (c & lc & Hc & Hlc).
  destruct (requestPermissions_run env st) as (q & lq & Hq & Hlq).
  assert (Hret : result_of (scanSession env st st) = Resolved tt)
    by (rewrite scanSession_run; destruct (on_startDeviceScan env); reflexivity).
  destruct (State_eqb (bluetoothState st) PoweredOn) eqn:Hon.
  - apply State_eqb_eq in Hon.
    destruct c.
    + exists lc. split; [exact Hlc|]. right; right.
      split; [exact Hon|]. split; [left; rewrite Hc; reflexivity|].
      unfold bind at 1, render. rewrite Hon. simpl. unfold bind at 1. rewrite Hc. simpl.
      destruct (scanSession env st st) as [[r s] l].
      unfold result_of, state_of, log_of in *; simpl in *. now subst r.
    + destruct q.
      * exists (lc ++ lq)%list. split; [now apply Forall_app|]. right; right.
        split; [exact Hon|]. split; [right; rewrite Hq; reflexivity|].
        unfold bind at 1, render. rewrite Hon. simpl. unfold bind at 1. rewrite Hc. simpl.
        unfold bind at 1. rewrite Hq. simpl.
        destruct (scanSession env st st) as [[r s] l].
        unfold result_of, state_of, log_of in *; simpl in *. subst r.
        now rewrite app_assoc.
      * exists (lc ++ lq)%list. split; [now apply Forall_app|]. right; left.
        split; [exact Hon|]. split; [rewrite Hc; reflexivity|].
        split; [rewrite Hq; reflexivity|].
        unfold bind at 1, render. rewrite Hon. simpl. unfold bind at 1. rewrite Hc. simpl.
        unfold bind at 1. rewrite Hq. simpl. now rewrite app_nil_r.
  - exists [Did (AlertAlert "Bluetooth Error" "Please turn on Bluetooth")].
    split; [repeat constructor|]. left. split.
    + intros Heq. apply State_eqb_eq in Heq. congruence.
    + unfold bind, render. rewrite Hon. reflexivity.
Qed.

(** C7: [startBLEScan] calls [startDeviceScan] only when the adapter state
    is [PoweredOn] and the permissions were found granted by the check or
    by the request; when the adapter is not [PoweredOn], and when the
    check and then the request both come back denied, it does not call
    [startDeviceScan] and leaves the device list as it was. *)
Theorem startBLEScan_gate (env : Env) (st : AppState) :
  let r := startBLEScan env st in
  (Exists startCall (log_of r) ->
     bluetoothState st = PoweredOn
     /\ (result_of (checkPermissions env st) = Resolved true
         \/ result_of (requestPermissions env st) = Resolved true))
  /\ (bluetoothState st <> PoweredOn ->
        Forall (fun entry => ~ startCall entry) (log_of r)
        /\ devices (state_of r) = devices st)
  /\ (result_of (checkPermissions env st) = Resolved false ->
      result_of (requestPermissions env st) = Resolved false ->
        Forall (fun entry => ~ startCall entry) (log_of r)
        /\ devices (state_of r) = devices st).
Proof.
  cbv zeta.
  destruct (startBLEScan_cases env st) as (pre & Hpre & Hcases).
  assert (Hquiet : Forall (fun entry => ~ startCall entry) pre).
  { eapply Forall_impl; [|exact Hpre]. apply permissionCall_not_start. }
  destruct Hcases as [(Hoff & ->)|[(Hon & Hc & Hq & ->)|(Hon & Hperm & ->)]];
    unfold log_of, state_of; simpl.
  - split; [|split].
    + intros Hex. apply Exists_exists in Hex as (entry & Hin & Hstart).
      rewrite Forall_forall in Hquiet. exfalso. exact (Hquiet _ Hin Hstart).
    + intros _. split; [exact Hquiet | reflexivity].
    + intros _ _. split; [exact Hquiet | reflexivity].
  - split; [|split].
    + intros Hex. apply Exists_exists in Hex as (entry & Hin & Hstart).
      rewrite Forall_forall in Hquiet. exfalso. exact (Hquiet _ Hin Hstart).
    + intros Hoff. contradiction.
    + intros _ _. split; [exact Hquiet | reflexivity].
  - split; [|split].
    + intros _. split; assumption.
    + intros Hoff. contradiction.
    + intros Hc Hq. destruct Hperm as [Hp|Hp]; congruence.
Qed.

Lemma startBLEScan_gate_witness :
  (bluetoothState (with_bluetoothState PoweredOn initialState) = PoweredOn
   /\ (result_of (checkPermissions Sample.healthy (with_bluetoothState PoweredOn initialState))
       = Resolved true
       \/ result_of (requestPermissions Sample.healthy (with_bluetoothState PoweredOn initialState))
          = Resolved true))
  /\ devices (state_of (startBLEScan Sample.healthy
                (with_devices [Sample.sensor] initialState))) = [Sample.sensor]
  /\ devices (state_of (startBLEScan Sample.refusing
                (with_devices [Sample.sensor] (with_bluetoothState PoweredOn initialState))))
     = [Sample.sensor].
Proof.
  split; [|split].
  - apply (proj1 (startBLEScan_gate Sample.healthy
                    (with_bluetoothState PoweredOn initialState))).
    cbv. apply Exists_cons_tl. apply Exists_cons_tl. apply Exists_cons_tl.
    apply Exists_cons_tl. apply Exists_cons_hd. exact I.
  - apply (proj1 (proj2 (startBLEScan_gate Sample.healthy
                           (with_devices [Sample.sensor] initialState)))).
    simpl. intros H. discriminate H.
  - apply (proj2 (proj2 (startBLEScan_gate Sample.refusing
             (with_devices [Sample.sensor] (with_bluetoothState PoweredOn initialState)))));
      reflexivity.
Defined.

(* ===================================================================== *)
(** ** The discovered-device list *)
(* ===================================================================== *)

Lemma wellFormedDevices_nil : wellFormedDevices [].
Proof. split; constructor. Qed.

Lemma addDevice_wellFormed device prevDevices :
  JS.truthyStr (name device) = true ->
  wellFormedDevices prevDevices -> wellFormedDevices (addDevice device prevDevices).
Proof.
  intros Hname [Hids Hnames]. unfold addDevice.
  destruct (find _ prevDevices) eqn:Hfind; [split; assumption|].
  split.
  - rewrite map_app. apply NoDup_app; [exact Hids | repeat constructor; intros [] |].
    intros i Hin [<-|[]]. apply in_map_iff in Hin as (d & Hid & Hd).
    pose proof (find_none _ _ Hfind d Hd) as Hne. simpl in Hne.
    rewrite Hid, String.eqb_refl in Hne. discriminate.
  - apply Forall_app. split; [exact Hnames | repeat constructor; exact Hname].
Qed.

(** What one scan-result callback does to the list. *)
Lemma onScanResult_devices error device st :
  devices (state_of (onScanResult error device st)) = devices st
  \/ exists d, device = Some d /\ JS.truthyStr (name d) = true
               /\ devices (state_of (onScanResult error device st))
                  = addDevice d (devices st).
Proof.
  destruct error as [e|]; [left; reflexivity|].
  destruct device as [d|]; [|left; reflexivity].
  simpl. destruct (JS.truthyStr (name d)) eqn:Hname; [|left; reflexivity].
  right. exists d. repeat split. exact Hname.
Qed.

Lemma onScanResult_wellFormed error device st :
  wellFormedDevices (devices st) ->
  wellFormedDevices (devices (state_of (onScanResult error device st))).
Proof.
  intros Hwf.
  destruct (onScanResult_devices error device st) as [->|(d & _ & Hname & ->)];
    [exact Hwf | now apply addDevice_wellFormed].
Qed.

Lemma scanResults_wellFormed results : forall st,
  wellFormedDevices (devices st) -> wellFormedDevices (devices (scanResults results st)).
Proof.
  induction results as [|[error device] rest IH]; intros st Hwf; simpl; [exact Hwf|].
  apply IH. now apply onScanResult_wellFormed.
Qed.

Lemma startBLEScan_devices env st :
  let r := startBLEScan env st in
  (devices (state_of r) = devices st /\ Forall (fun entry => ~ startCall entry) (log_of r))
  \/ devices (state_of r) = [].
Proof.
  cbv zeta. destruct (startBLEScan_cases env st) as (pre & Hpre & Hcases).
  assert (Hquiet : Forall (fun entry => ~ startCall entry) pre)
    by (eapply Forall_impl; [|exact Hpre]; apply permissionCall_not_start).
  destruct Hcases as [(_ & ->)|[(_ & _ & _ & ->)|(_ & _ & ->)]].
  - left. split; [reflexivity | exact Hquiet].
  - left. split; [reflexivity | exact Hquiet].
  - right. rewrite scanSession_run. destruct (on_startDeviceScan env); reflexivity.
Qed.

Section Frame.

Context {X : Type} (f : AppState -> X).
Hypothesis f_sensorData : forall v st, f (with_sensorData v st) = f st.
Hypothesis f_connected : forall b st, f (with_connected b st) = f st.
Hypothesis f_statusMsg : forall s st, f (with_statusMsg s st) = f st.
Hypothesis f_bluetoothState : forall s st, f (with_bluetoothState s st) = f st.
Hypothesis f_scanning : forall b st, f (with_scanning b st) = f st.
Hypothesis f_selectedDevice : forall d st, f (with_selectedDevice d st) = f st.
Hypothesis f_permissionsGranted : forall b st, f (with_permissionsGranted b st) = f st.

(** A part of the state that no setter but [setDevices] touches is left
    alone by every handler that does not call [setDevices]. *)
Ltac frame :=
  repeat first
    [ apply preserves_bind; [|intro] | apply preserves_try; [|intro]
    | apply preserves_for_of; intro
    | apply preserves_ret | apply preserves_throw | apply preserves_lift
    | apply preserves_render | apply preserves_call | apply preserves_perform
    | apply preserves_modify; intro; solve
        [ apply f_sensorData | apply f_connected | apply f_statusMsg
        | apply f_bluetoothState | apply f_scanning | apply f_selectedDevice
        | apply f_permissionsGranted ]
    | match goal with
      | |- preserves _ (match ?x with _ => _ end) => destruct x
      end ].

Lemma frame_onStateChange state : preserves f (onStateChange state).
Proof. unfold onStateChange, setBluetoothState, setStatusMsg, setConnected, setSelectedDevice. frame. Qed.

Lemma frame_checkPermissions env : preserves f (checkPermissions env).
Proof. unfold checkPermissions. frame. Qed.

Lemma frame_onMount env : preserves f (onMount env).
Proof.
  unfold onMount, setPermissionsGranted.
  apply preserves_bind; [apply frame_checkPermissions | intro; frame].
Qed.

Lemma frame_onTimeout callback : preserves f (onTimeout callback).
Proof. unfold onTimeout, setScanning, setStatusMsg. frame. Qed.

Lemma frame_connecting device : preserves f (connecting device).
Proof. unfold connecting, setStatusMsg. frame. Qed.

Lemma frame_connectToDevice_resumed env device :
  preserves f (connectToDevice_resumed env device).
Proof.
  unfold connectToDevice_resumed, connection, connectionFailed,
    setStatusMsg, setConnected, setSelectedDevice. frame.
Qed.

Lemma frame_connectToDevice env device : preserves f (connectToDevice env device).
Proof.
  unfold connectToDevice, connecting, connection, connectionFailed,
    setStatusMsg, setConnected, setSelectedDevice. frame.
Qed.

Lemma frame_onNotification env error characteristic :
  preserves f (onNotification env error characteristic).
Proof.
  unfold onNotification, property, setSensorData, setStatusMsg. frame.
Qed.

Lemma frame_disconnectDevice env : preserves f (disconnectDevice env).
Proof.
  unfold disconnectDevice, setSelectedDevice, setConnected, setSensorData, setStatusMsg.
  frame.
Qed.

Lemma frame_readSensorData env : preserves f (readSensorData env).
Proof. unfold readSensorData, setStatusMsg. frame. Qed.

End Frame.

Lemma exec_invariant (I : World -> Prop) :
  (forall ev w, enabled ev w = true -> I w -> I (step ev w)) ->
  forall evs w w', I w -> exec evs w = Some w' -> I w'.
Proof.
  intros Hstep. induction evs as [|ev rest IH]; simpl; intros w w' Hw Hexec.
  - now inversion Hexec; subst.
  - destruct (enabled ev w) eqn:Hen; [|discriminate].
    eapply IH; [|exact Hexec]. now apply Hstep.
Qed.

Lemma step_devices ev w :
  wellFormedDevices (devices (app w)) -> wellFormedDevices (devices (app (step ev w))).
Proof.
  intros Hwf. destruct ev; simpl.
  - rewrite (frame_onMount devices) by (intros; reflexivity). exact Hwf.
  - rewrite (frame_onStateChange devices) by (intros; reflexivity). exact Hwf.
  - destruct (startBLEScan_devices env (app w)) as [[-> _]| ->];
      [exact Hwf | apply wellFormedDevices_nil].
  - now apply onScanResult_wellFormed.
  - destruct (timers w) as [|[due callback] rest]; [exact Hwf|]. simpl.
    rewrite (frame_onTimeout devices) by (intros; reflexivity). exact Hwf.
  - exact Hwf.
  - rewrite (frame_connectToDevice_resumed devices) by (intros; reflexivity). exact Hwf.
  - rewrite (frame_onNotification devices) by (intros; reflexivity). exact Hwf.
  - rewrite (frame_disconnectDevice devices) by (intros; reflexivity). exact Hwf.
  - rewrite (frame_readSensorData devices) by (intros; reflexivity). exact Hwf.
  - exact Hwf.
Qed.

(** C3: a call of [startBLEScan] that gets to [startDeviceScan] has reset
    the device list to empty; after any sequence of scan-result callbacks
    that follows, and in every state the component can reach, no two
    entries of the list have the same identifier and every entry has a
    name. *)
Theorem devices_deduplicated_and_named :
  (forall env st,
     Exists startCall (log_of (startBLEScan env st)) ->
     devices (state_of (startBLEScan env st)) = []
     /\ forall results,
          wellFormedDevices (devices (scanResults results (state_of (startBLEScan env st)))))
  /\ (forall w, Reachable w -> wellFormedDevices (devices (app w))).
Proof.
  split.
  - intros env st Hstart.
    assert (Hnil : devices (state_of (startBLEScan env st)) = []).
    { destruct (startBLEScan_devices env st) as [[_ Hquiet]|Hnil]; [|exact Hnil].
      apply Exists_exists in Hstart as (entry & Hin & Hentry).
      rewrite Forall_forall in Hquiet. exfalso. exact (Hquiet _ Hin Hentry). }
    split; [exact Hnil|]. intros results.
    apply scanResults_wellFormed. rewrite Hnil. apply wellFormedDevices_nil.
  - intros w [evs Hexec].
    apply (exec_invariant (fun w => wellFormedDevices (devices (app w))))
      with (evs := evs) (w := initialWorld); [|apply wellFormedDevices_nil | exact Hexec].
    intros ev w0 _. apply step_devices.
Qed.

Lemma devices_deduplicated_and_named_witness :
  wellFormedDevices [Sample.sensor; Sample.other]
  /\ wellFormedDevices [Sample.sensor].
Proof.
  split.
  - apply (proj2 (proj1 devices_deduplicated_and_named Sample.healthy
                    (with_devices [Sample.other] (with_bluetoothState PoweredOn initialState))
                    ltac:(cbv; do 4 apply Exists_cons_tl; apply Exists_cons_hd; exact I))
                 [(None, Some Sample.sensor); (None, Some Sample.unnamed);
                  (None, Some Sample.sensor); (None, Some Sample.other); (None, None)]).
  - apply (proj2 devices_deduplicated_and_named
             {| app := with_devices [Sample.sensor] (scanningState
                         (with_bluetoothState PoweredOn
                            (with_statusMsg "Bluetooth is ready - Scan for devices" initialState)));
                now := 0;
                timers := [(10000, StopScan 0)];
                connectingTo := [];
                trace := map (pair 0)
                           [Did (Check ACCESS_FINE_LOCATION); Did (Check ACCESS_COARSE_LOCATION);
                            Did (Check BLUETOOTH_SCAN); Did (Check BLUETOOTH_CONNECT);
                            Did StartDeviceScan; Did (SetTimeout (StopScan 0) 10000)] |}).
    exists [AdapterState PoweredOn; PressScan Sample.healthy;
            ScanResult None (Some Sample.sensor); ScanResult None (Some Sample.sensor)].
    reflexivity.
Defined.

(* ===================================================================== *)
(** ** Notifications and the sensor snapshot *)
(* ===================================================================== *)

(** The notification listener on a payload that is there. *)
Lemma onNotification_run env c payload st :
  value c = Some payload -> payload <> "" ->
  onNotification env None (Some c) st =
  match JSON_parse env payload with
  | Rejected _ => (Resolved tt, st, [Did (ConsoleLog "Raw data received:" payload)])
  | Resolved data =>
      match JS.get data "temperature", JS.get data "humidity" with
      | Some temperature, Some humidity =>
          if JS.truthy temperature || JS.truthy humidity
          then (Resolved tt, received data st, [])
          else (Resolved tt, st, [])
      | _, _ => (Resolved tt, st, [Did (ConsoleLog "Raw data received:" payload)])
      end
  end.
Proof.
  intros Hvalue Hpayload. unfold onNotification. rewrite Hvalue.
  apply String.eqb_neq in Hpayload. rewrite Hpayload. simpl.
  unfold property. unfold_handler.
  destruct (JSON_parse env payload) as [data|e]; [|reflexivity].
  destruct data; simpl; try reflexivity;
    try (destruct (JS.truthy _); simpl; try reflexivity;
         destruct (JS.truthy _); reflexivity).
Qed.

(** The listener does nothing when there is no characteristic, no value
    or an empty value. *)
Lemma onNotification_no_value env characteristic st :
  match characteristic with
  | Some c => JS.truthyStr (value c) = false
  | None => True
  end ->
  onNotification env None characteristic st = (Resolved tt, st, []).
Proof.
  destruct characteristic as [c|]; [|reflexivity].
  unfold onNotification. destruct (value c) as [payload|]; [|reflexivity].
  simpl. intros ->. reflexivity.
Qed.

(** A payload that parses to an object is stored when one of the two
    fields is truthy, and dropped otherwise. *)
Lemma onNotification_object env c payload fields st :
  value c = Some payload -> payload <> "" ->
  JSON_parse env payload = Resolved (JS.Object fields) ->
  state_of (onNotification env None (Some c) st)
  = if JS.truthy (JS.lookup "temperature" fields) || JS.truthy (JS.lookup "humidity" fields)
    then received (JS.Object fields) st
    else st.
Proof.
  intros Hvalue Hpayload Hparse.
  rewrite (onNotification_run env c payload st Hvalue Hpayload), Hparse. simpl.
  destruct (JS.truthy (JS.lookup "temperature" fields) || JS.truthy (JS.lookup "humidity" fields));
    reflexivity.
Qed.

(** A number is falsy exactly when it is zero or not a number. *)
Lemma truthy_zero : JS.truthy (JS.Number 0%float) = false
                    /\ JS.truthy (JS.Number (-0)%float) = false
                    /\ JS.truthy (JS.Number 21.5%float) = true.
Proof. repeat split. Qed.

(** C1, at the input where the code departs from it: the payload
    [{"temperature":0}] parses to an object that contains a numeric
    temperature field, yet the listener leaves the displayed readings and
    the status message as they were, because the guard of line 221 tests
    the field's truthiness and zero is falsy.  The render (line 380) tests
    [!== undefined] and would show the zero reading had it been stored. *)
Theorem zero_reading_is_dropped :
  let zero := JS.Object [("temperature", JS.Number 0%float)] in
  let st' := state_of (onNotification Sample.healthy None
                         (Some (Sample.reading Sample.zeroPayload)) Sample.monitoring) in
  JSON_parse Sample.healthy Sample.zeroPayload = Resolved zero
  /\ JS.has "temperature" [("temperature", JS.Number 0%float)] = true
  /\ JS.numeric "temperature" [("temperature", JS.Number 0%float)] = true
  /\ sensorData st' = sensorData Sample.monitoring
  /\ sensorData st' <> zero
  /\ statusMsg st' = statusMsg Sample.monitoring
  /\ showsSensorReadings (with_sensorData zero Sample.monitoring) = true
  /\ showsSensorReadings st' = false.
Proof.
  cbv zeta. repeat split; try reflexivity.
  rewrite (onNotification_object Sample.healthy (Sample.reading Sample.zeroPayload)
             Sample.zeroPayload [("temperature", JS.Number 0%float)]);
    [|reflexivity | discriminate | reflexivity].
  simpl. discriminate.
Qed.

Lemma onScanResult_sensorData error device : preserves sensorData (onScanResult error device).
Proof.
  intros st. destruct error; [reflexivity|]. destruct device as [d|]; [|reflexivity].
  simpl. destruct (JS.truthyStr (name d)); reflexivity.
Qed.

Lemma startBLEScan_sensorData env : preserves sensorData (startBLEScan env).
Proof.
  intros st. destruct (startBLEScan_cases env st) as (pre & _ & Hcases).
  destruct Hcases as [(_ & ->)|[(_ & _ & _ & ->)|(_ & _ & ->)]]; try reflexivity.
  rewrite scanSession_run. destruct (on_startDeviceScan env); reflexivity.
Qed.

Lemma disconnectDevice_run env st :
  disconnectDevice env st =
  match selectedDevice st with
  | None => (Resolved tt, st, [])
  | Some selected =>
      match on_cancelConnection env selected with
      | Resolved _ =>
          (Resolved tt,
           with_statusMsg "Disconnected from device"
             (with_sensorData (JS.Object [])
                (with_connected false (with_selectedDevice None st))),
           [Did (CancelConnection selected)])
      | Rejected error =>
          (Resolved tt, st,
           [Failed (CancelConnection selected);
            Did (ConsoleError "Disconnect failed:" (message error))])
      end
  end.
Proof.
  unfold disconnectDevice. unfold_handler.
  destruct (selectedDevice st) as [selected|]; [|reflexivity].
  destruct (on_cancelConnection env selected) as [[]|error]; reflexivity.
Qed.

(** C4: a notification whose payload parses to a value that passes the
    guard of line 221 makes the sensor snapshot exactly that value,
    whatever the snapshot held before (no field of the old snapshot is
    kept); any other notification leaves the snapshot alone;
    [disconnectDevice] makes it the empty object when the connection is
    cancelled; no other handler writes it. *)
Theorem sensorData_replaced_wholesale :
  (forall env error characteristic st,
     let st' := state_of (onNotification env error characteristic st) in
     sensorData st' = sensorData st
     \/ (exists c payload,
           characteristic = Some c /\ value c = Some payload
           /\ JSON_parse env payload = Resolved (sensorData st')))
  /\ (forall env c payload data temperature humidity st,
        value c = Some payload -> payload <> "" ->
        JSON_parse env payload = Resolved data ->
        JS.get data "temperature" = Some temperature ->
        JS.get data "humidity" = Some humidity ->
        JS.truthy temperature || JS.truthy humidity = true ->
        onNotification env None (Some c) st = (Resolved tt, received data st, [])
        /\ sensorData (state_of (onNotification env None (Some c) st)) = data)
  /\ (forall env st d,
        selectedDevice st = Some d ->
        on_cancelConnection env d = Resolved tt ->
        sensorData (state_of (disconnectDevice env st)) = JS.Object [])
  /\ (forall env state error device callback target,
        preserves sensorData (onStateChange state)
        /\ preserves sensorData (onMount env)
        /\ preserves sensorData (startBLEScan env)
        /\ preserves sensorData (onScanResult error device)
        /\ preserves sensorData (onTimeout callback)
        /\ preserves sensorData (connectToDevice env target)
        /\ preserves sensorData (readSensorData env)).
Proof.
  split; [|split; [|split]].
  - intros env error characteristic st. cbv zeta.
    destruct error as [e|]; [left; reflexivity|].
    destruct characteristic as [c|]; [|left; reflexivity].
    destruct (value c) as [payload|] eqn:Hvalue;
      [|left; unfold onNotification; rewrite Hvalue; reflexivity].
    destruct (String.eqb_spec payload "") as [->|Hpayload];
      [left; unfold onNotification; rewrite Hvalue; reflexivity|].
    rewrite (onNotification_run env c payload st Hvalue Hpayload).
    destruct (JSON_parse env payload) as [data|e] eqn:Hparse; [|left; reflexivity].
    destruct (JS.get data "temperature"); [|left; reflexivity].
    destruct (JS.get data "humidity"); [|left; reflexivity].
    destruct (JS.truthy v || JS.truthy v0); [|left; reflexivity].
    right. exists c, payload. repeat split; assumption.
  - intros env c payload data temperature humidity st
      Hvalue Hpayload Hparse Htemperature Hhumidity Hpresent.
    rewrite (onNotification_run env c payload st Hvalue Hpayload).
    rewrite Hparse, Htemperature, Hhumidity, Hpresent. split; reflexivity.
  - intros env st d Hsel Hcancel.
    rewrite disconnectDevice_run, Hsel, Hcancel. reflexivity.
  - intros env state error device callback target. repeat split.
    + apply (frame_onStateChange sensorData); intros; reflexivity.
    + apply (frame_onMount sensorData); intros; reflexivity.
    + apply startBLEScan_sensorData.
    + apply onScanResult_sensorData.
    + apply (frame_onTimeout sensorData); intros; reflexivity.
    + apply (frame_connectToDevice sensorData); intros; reflexivity.
    + apply (frame_readSensorData sensorData); intros; reflexivity.
Qed.

Lemma sensorData_replaced_wholesale_witness :
  let humid := received (JS.Object [("humidity", JS.Number 40%float);
                                    ("temperature", JS.Number 19%float)])
                 Sample.monitoring in
  sensorData (state_of (onNotification Sample.healthy None
                          (Some (Sample.reading Sample.warmPayload)) humid))
  = JS.Object [("temperature", JS.Number 21.5%float)]
  /\ sensorData (state_of (disconnectDevice Sample.healthy humid)) = JS.Object [].
Proof.
  cbv zeta. split.
  - apply (proj1 (proj2 sensorData_replaced_wholesale) Sample.healthy
             (Sample.reading Sample.warmPayload) Sample.warmPayload
             (JS.Object [("temperature", JS.Number 21.5%float)])
             (JS.Number 21.5%float) JS.Undefined);
      [reflexivity | discriminate | reflexivity | reflexivity | reflexivity | reflexivity].
  - apply (proj1 (proj2 (proj2 sensorData_replaced_wholesale)) Sample.healthy _
             Sample.sensor); reflexivity.
Defined.

(* ===================================================================== *)
(** ** Connections *)
(* ===================================================================== *)

Lemma connecting_run device st :
  connecting device st
  = (Resolved tt, with_statusMsg ("Connecting to " ++ JS.show (name device) ++ "...") st, []).
Proof. reflexivity. Qed.

(** [connectToDevice] is its first line followed by the part that runs
    once [device.connect()] has settled. *)
Lemma connectToDevice_split env device st :
  connectToDevice env device st
  = connectToDevice_resumed env device (state_of (connecting device st)).
Proof.
  unfold connectToDevice, connectToDevice_resumed, try_catch.
  unfold bind at 1. rewrite connecting_run. simpl.
  destruct (connection env device _) as [[r s] l]. reflexivity.
Qed.

Lemma connection_log env device st :
  exists first rest,
    log_of (connection env device st) = first :: rest
    /\ (first = Did (Connect device) \/ first = Failed (Connect device))
    /\ Forall neitherConnectNorCancel rest.
Proof.
  unfold connection. unfold bind at 1, call at 1.
  destruct (on_connect env device) as [connectedDevice|e].
  - match goal with
    | |- context [match ?k ?s with _ => _ end] =>
        assert (Hrest : Forall neitherConnectNorCancel (log_of (k s)))
    end.
    { match goal with |- Forall _ (log_of (?m ?s)) => revert s; change (logs neitherConnectNorCancel m) end.
      unfold neitherConnectNorCancel, setSelectedDevice, setConnected, setStatusMsg.
      handler. }
    match goal with
    | |- context [match ?k ?s with _ => _ end] => destruct (k s) as [[r s'] l]
    end.
    exists (Did (Connect device)), l. simpl. auto.
  - exists (Failed (Connect device)), []. simpl. auto.
Qed.

Lemma connectionFailed_run error st :
  connectionFailed error st
  = (Resolved tt,
     with_connected false (with_statusMsg ("Connection failed: " ++ message error) st),
     [Did (ConsoleError "Connection failed:" (message error))]).
Proof. reflexivity. Qed.

Lemma connectToDevice_resumed_log env device st :
  exists first rest,
    log_of (connectToDevice_resumed env device st) = first :: rest
    /\ (first = Did (Connect device) \/ first = Failed (Connect device))
    /\ Forall neitherConnectNorCancel rest.
Proof.
  destruct (connection_log env device st) as (first & rest & Hlog & Hfirst & Hrest).
  unfold connectToDevice_resumed, try_catch.
  destruct (connection env device st) as [[[[]|e] s] l] eqn:Hrun; unfold log_of in *; simpl in *.
  - exists first, rest. auto.
  - exists first, (rest ++ [Did (ConsoleError "Connection failed:" (message e))])%list.
    subst l. split; [reflexivity|]. split; [exact Hfirst|].
    apply Forall_app. split; [exact Hrest|]. repeat constructor. simpl. tauto.
Qed.

Lemma held_app tr1 tr2 links : held (tr1 ++ tr2) links = held tr2 (held tr1 links).
Proof.
  revert links. induction tr1 as [|[t entry] tr1 IH]; intros links; simpl; [reflexivity|].
  destruct entry as [e|e]; [destruct e|]; apply IH.
Qed.

(** Without a resolved [cancelConnection], every connection held stays
    held. *)
Lemma held_grows t log : forall links,
  Forall (fun entry => ~ cancelCall entry) log ->
  incl links (held (map (pair t) log) links).
Proof.
  induction log as [|entry log IH]; intros links Hlog; simpl; [apply incl_refl|].
  inversion Hlog as [|? ? Hentry Hrest]; subst.
  destruct entry as [e|e]; [destruct e|]; try (now apply IH).
  - destruct (existsb (String.eqb (id d)) links); [now apply IH|].
    eapply incl_tran; [|apply IH; exact Hrest]. now apply incl_appl, incl_refl.
  - exfalso. apply Hentry. exact I.
Qed.

(** How [connection] goes according to what [connect()] and the
    discovery answer: a rejection ends it where it happens, with nothing
    written; once both have resolved the flag is set and the discovered
    device selected, and nothing that follows writes either. *)
Lemma connection_settled env device st :
  match on_connect env device with
  | Rejected e => connection env device st = (Rejected e, st, [Failed (Connect device)])
  | Resolved connectedDevice =>
      match on_discover env connectedDevice with
      | Rejected e =>
          connection env device st
          = (Rejected e, st,
             [Did (Connect device);
              Failed (DiscoverAllServicesAndCharacteristics connectedDevice)])
      | Resolved discoveredDevice =>
          connected (state_of (connection env device st)) = true
          /\ selectedDevice (state_of (connection env device st)) = Some discoveredDevice
      end
  end.
Proof.
  destruct (on_connect env device) as [connectedDevice|e1] eqn:Hconnect.
  - destruct (on_discover env connectedDevice) as [discoveredDevice|e2] eqn:Hdiscover.
    + unfold connection. rewrite Hconnect, bind_call_resolved, Hdiscover, bind_call_resolved.
      unfold setSelectedDevice, setConnected, setStatusMsg. rewrite !bind_modify.
      rewrite !state_of_triple.
      match goal with
      | |- connected (state_of (bind ?m ?k ?s)) = _ /\ _ =>
          assert (Hflag : preserves connected (bind m k)) by handler;
          assert (Hselected : preserves selectedDevice (bind m k)) by handler;
          rewrite (Hflag s), (Hselected s)
      end.
      split; reflexivity.
    + unfold connection. rewrite Hconnect, bind_call_resolved, Hdiscover.
      rewrite bind_call_rejected. reflexivity.
  - unfold connection. rewrite Hconnect, bind_call_rejected. reflexivity.
Qed.

(** C2, as the code has it: a call of [connectToDevice] calls
    [device.connect()] at most once and [cancelConnection] never, so
    every connection held before the call is still held after it.  The
    Connect button can be pressed only while the [connected] flag is
    false.  What runs before [device.connect()] is awaited leaves the
    flag as it was; the flag is set after the call exactly when
    everything from [device.connect()] on went through, which requires
    [device.connect()] and the discovery to have resolved.  So a press of
    Connect leaves the Connect button of every device as pressable as it
    was. *)
Theorem connectToDevice_opens_without_closing :
  (forall env device st t tr,
     let log := log_of (connectToDevice env device st) in
     Forall (fun entry => ~ cancelCall entry) log
     /\ (List.length (filter connectCall log) <= 1)%nat
     /\ incl (held tr []) (held (tr ++ map (pair t) log) []))
  /\ (forall device w, enabled (PressConnect device) w = true -> connected (app w) = false)
  /\ (forall device st, connected (state_of (connecting device st)) = connected st)
  /\ (forall env device st,
        connected (state_of (connectToDevice env device st)) = true
        <-> result_of (connection env device (state_of (connecting device st)))
            = Resolved tt)
  /\ (forall env device st,
        connected (state_of (connectToDevice env device st)) = true ->
        exists connectedDevice discoveredDevice,
          on_connect env device = Resolved connectedDevice
          /\ on_discover env connectedDevice = Resolved discoveredDevice
          /\ selectedDevice (state_of (connectToDevice env device st))
             = Some discoveredDevice)
  /\ (forall device other w,
        enabled (PressConnect other) w = true ->
        enabled (PressConnect other) (step (PressConnect device) w) = true).
Proof.
  assert (Hsettled : forall env device st,
            (connected (state_of (connectToDevice env device st)) = true
             <-> result_of (connection env device (state_of (connecting device st)))
                 = Resolved tt)
            /\ (connected (state_of (connectToDevice env device st)) = true ->
                exists connectedDevice discoveredDevice,
                  on_connect env device = Resolved connectedDevice
                  /\ on_discover env connectedDevice = Resolved discoveredDevice
                  /\ selectedDevice (state_of (connectToDevice env device st))
                     = Some discoveredDevice)).
  { intros env device st. rewrite connectToDevice_split.
    pose proof (connection_settled env device (state_of (connecting device st))) as Hgo.
    unfold connectToDevice_resumed, try_catch.
    destruct (on_connect env device) as [connectedDevice|e1] eqn:Hconnect.
    - destruct (on_discover env connectedDevice) as [discoveredDevice|e2] eqn:Hdiscover.
      + destruct Hgo as [Hflag Hselected]. unfold result_of, state_of in *.
        destruct (connection env device _) as [[[[]|e] s] l]; cbn [fst snd] in *.
        * split; [split; [intros _; reflexivity | intros _; exact Hflag]|].
          intros _. exists connectedDevice, discoveredDevice. auto.
        * rewrite connectionFailed_run. cbn [fst snd connected with_connected].
          split; [split; discriminate | discriminate].
      + rewrite Hgo. rewrite connectionFailed_run. unfold result_of, state_of.
        cbn [fst snd connected with_connected]. split; [split; discriminate | discriminate].
    - rewrite Hgo. rewrite connectionFailed_run. unfold result_of, state_of.
      cbn [fst snd connected with_connected]. split; [split; discriminate | discriminate]. }
  repeat match goal with |- _ /\ _ => split end.
  - intros env device st t tr. cbv zeta. rewrite connectToDevice_split.
    destruct (connectToDevice_resumed_log env device (state_of (connecting device st)))
      as (first & rest & -> & Hfirst & Hrest).
    assert (Hno : Forall (fun entry => ~ cancelCall entry) (first :: rest)).
    { constructor.
      - destruct Hfirst as [-> | ->]; simpl; tauto.
      - eapply Forall_impl; [|exact Hrest]. intros entry [_ H]. exact H. }
    split; [exact Hno|]. split.
    + assert (Hnone : filter connectCall rest = []).
      { clear Hno. induction rest as [|entry rest IH]; [reflexivity|].
        inversion Hrest as [|? ? [Hentry _] Hrest']; subst. simpl. rewrite Hentry.
        now apply IH. }
      simpl. destruct (connectCall first); simpl; rewrite Hnone; simpl; lia.
    + rewrite held_app. now apply held_grows.
  - intros device w Hen. simpl in Hen. apply andb_prop in Hen as [_ Hflag].
    now destruct (connected (app w)).
  - reflexivity.
  - intros env device st. apply Hsettled.
  - intros env device st. apply Hsettled.
  - intros device other w Hen. exact Hen.
Qed.

Lemma two_connections_held :
  exists w, exec Sample.twoTaps initialWorld = Some w
            /\ held (trace w) [] = [id Sample.sensor; id Sample.other]
            /\ connected (app w) = true
            /\ selectedDevice (app w) = Some Sample.other.
Proof. eexists. split; [vm_compute; reflexivity|]. repeat split. Qed.

(** C2, as stated, fails: after two presses of Connect on two devices
    before either connection attempt has settled, two connections are
    held. *)
Lemma more_than_one_connection_held :
  ~ (forall w, Reachable w -> (List.length (held (trace w) []) <= 1)%nat).
Proof.
  intros Hclaim. destruct two_connections_held as (w & Hexec & Hheld & _).
  specialize (Hclaim w (ex_intro _ Sample.twoTaps Hexec)).
  rewrite Hheld in Hclaim. simpl in Hclaim. lia.
Qed.

Lemma connectToDevice_opens_without_closing_witness :
  let listed := step (ScanResult None (Some Sample.other))
                  (step (ScanResult None (Some Sample.sensor))
                     (step (PressScan Sample.healthy)
                        (step (AdapterState PoweredOn) initialWorld))) in
  connected (app listed) = false
  /\ enabled (PressConnect Sample.other) (step (PressConnect Sample.sensor) listed) = true
  /\ connected (state_of (connectToDevice Sample.healthy Sample.sensor (app listed))) = true
  /\ (exists connectedDevice discoveredDevice,
        on_connect Sample.healthy Sample.sensor = Resolved connectedDevice
        /\ on_discover Sample.healthy connectedDevice = Resolved discoveredDevice
        /\ selectedDevice (state_of (connectToDevice Sample.healthy Sample.sensor (app listed)))
           = Some discoveredDevice)
  /\ connected (state_of (connectToDevice Sample.flaky Sample.sensor (app listed))) = false.
Proof.
  cbv zeta.
  destruct connectToDevice_opens_without_closing
    as (_ & Hpress & _ & Hflag & Hresolved & Hagain).
  assert (Hup : connected (state_of (connectToDevice Sample.healthy Sample.sensor
                  (app (step (ScanResult None (Some Sample.other))
                          (step (ScanResult None (Some Sample.sensor))
                             (step (PressScan Sample.healthy)
                                (step (AdapterState PoweredOn) initialWorld))))))) = true)
    by (apply Hflag; reflexivity).
  split; [|split; [|split; [|split]]].
  - apply (Hpress Sample.sensor). reflexivity.
  - apply Hagain. reflexivity.
  - exact Hup.
  - apply Hresolved. exact Hup.
  - match goal with
    | |- connected (state_of (connectToDevice ?env ?d ?st)) = false =>
        destruct (connected (state_of (connectToDevice env d st))) eqn:Hdown;
        [apply (proj1 (Hflag env d st)) in Hdown; discriminate Hdown | reflexivity]
    end.
Defined.

(* ===================================================================== *)
(** ** The scan window *)
(* ===================================================================== *)

Lemma scheduled_app t l1 l2 :
  scheduled t (l1 ++ l2) = (scheduled t l1 ++ scheduled t l2)%list.
Proof.
  induction l1 as [|entry l1 IH]; simpl; [reflexivity|].
  destruct entry as [e|e]; [destruct e|]; simpl; rewrite ?IH; reflexivity.
Qed.

Lemma scheduled_quiet t log : Forall quiet log -> scheduled t log = [].
Proof.
  induction 1 as [|entry log Hentry _ IH]; simpl; [reflexivity|].
  destruct entry as [e|e]; [destruct e|]; try exact IH.
  exfalso. apply Hentry. exact I.
Qed.

Lemma quiet_no_scan (t t' : Z) e log :
  Forall quiet log -> scanCall (Did e) -> ~ In (t', Did e) (map (pair t) log).
Proof.
  intros Hlog Hscan Hin. apply in_map_iff in Hin as (entry & Heq & Hin).
  inversion Heq; subst. rewrite Forall_forall in Hlog. exact (Hlog _ Hin Hscan).
Qed.

Section QuietHandlers.

Ltac quiet_handler :=
  unfold quiet, setSensorData, setConnected, setStatusMsg, setBluetoothState,
    setScanning, setDevices, setSelectedDevice, setPermissionsGranted;
  handler.

Lemma quiet_onStateChange state : logs quiet (onStateChange state).
Proof. unfold onStateChange. quiet_handler. Qed.

Lemma quiet_onMount env : logs quiet (onMount env).
Proof. unfold onMount, checkPermissions. quiet_handler. Qed.

Lemma quiet_onScanResult error device : logs quiet (onScanResult error device).
Proof. unfold onScanResult. quiet_handler. Qed.

Lemma quiet_connecting device : logs quiet (connecting device).
Proof. unfold connecting. quiet_handler. Qed.

Lemma quiet_connectToDevice_resumed env device :
  logs quiet (connectToDevice_resumed env device).
Proof. unfold connectToDevice_resumed, connection, connectionFailed. quiet_handler. Qed.

Lemma quiet_onNotification env error characteristic :
  logs quiet (onNotification env error characteristic).
Proof. unfold onNotification, property. quiet_handler. Qed.

Lemma quiet_disconnectDevice env : logs quiet (disconnectDevice env).
Proof. unfold disconnectDevice. quiet_handler. Qed.

Lemma quiet_readSensorData env : logs quiet (readSensorData env).
Proof. unfold readSensorData. quiet_handler. Qed.

End QuietHandlers.

(** A call of [startBLEScan] either makes no scan call at all, or ends by
    starting the scan and scheduling one callback 10000 ms ahead. *)
Lemma startBLEScan_log env st :
  exists pre, Forall quiet pre /\
    (log_of (startBLEScan env st) = pre
     \/ log_of (startBLEScan env st)
        = (pre ++ [Did StartDeviceScan;
                   Did (SetTimeout (StopScan (List.length (devices st))) 10000)])%list).
Proof.
  destruct (startBLEScan_cases env st) as (pre & Hpre & Hcases).
  assert (Hquiet : Forall quiet pre)
    by (eapply Forall_impl; [|exact Hpre]; apply permissionCall_not_scan).
  destruct Hcases as [(_ & ->)|[(_ & _ & _ & ->)|(_ & _ & ->)]].
  - exists pre. auto.
  - exists pre. auto.
  - rewrite scanSession_run. destruct (on_startDeviceScan env) as [[]|e].
    + exists pre. auto.
    + exists (pre ++ [Failed StartDeviceScan; Did (ConsoleError "Scan failed:" (message e))])%list.
      split; [|left; reflexivity].
      apply Forall_app. split; [exact Hquiet|]. repeat constructor; intros [].
Qed.

Lemma onTimeout_run callback st :
  onTimeout callback st
  = (Resolved tt,
     with_statusMsg
       (match callback with
        | StopScan found => "Scan completed. Found " ++ JS.showNat found ++ " devices"
        end)
       (with_scanning false st),
     [Did StopDeviceScan]).
Proof. destruct callback. reflexivity. Qed.

(** Running a handler that makes no scan call keeps the invariant. *)
Lemma scanInvariant_quiet m w :
  Forall quiet (log_of (m (app w))) -> scanInvariant w -> scanInvariant (run m w).
Proof.
  intros Hquiet (Htimers & Hstops & Hstarts). unfold scanInvariant, run. simpl.
  rewrite (scheduled_quiet _ _ Hquiet), app_nil_r.
  split; [|split].
  - intros due callback Hin. destruct (Htimers _ _ Hin) as [Hdue Hstart].
    split; [exact Hdue | apply in_or_app; left; exact Hstart].
  - intros t Hin. apply in_app_or in Hin as [Hin|Hin].
    + apply in_or_app. left. now apply Hstops.
    + exfalso. exact (quiet_no_scan _ _ StopDeviceScan _ Hquiet I Hin).
  - intros s Hin. apply in_app_or in Hin as [Hin|Hin].
    + destruct (Hstarts _ Hin) as [Hpending|Hfired]; [left; exact Hpending|].
      right. apply in_or_app. left. exact Hfired.
    + exfalso. exact (quiet_no_scan _ _ StartDeviceScan _ Hquiet I Hin).
Qed.

(** Starting a scan keeps it: the new start has its callback pending. *)
Lemma scanInvariant_start m w pre callback :
  Forall quiet pre ->
  log_of (m (app w)) = (pre ++ [Did StartDeviceScan; Did (SetTimeout callback 10000)])%list ->
  scanInvariant w -> scanInvariant (run m w).
Proof.
  intros Hquiet Hlog (Htimers & Hstops & Hstarts). unfold scanInvariant, run. simpl.
  rewrite Hlog, scheduled_app, (scheduled_quiet _ _ Hquiet), map_app. simpl.
  split; [|split].
  - intros due cb Hin. apply in_app_or in Hin as [Hin|[Hin|[]]].
    + destruct (Htimers _ _ Hin) as [Hdue Hstart].
      split; [exact Hdue | apply in_or_app; left; exact Hstart].
    + inversion Hin; subst. split; [lia|].
      apply in_or_app. right. apply in_or_app. right. left. f_equal. lia.
  - intros t Hin. apply in_app_or in Hin as [Hin|Hin].
    + apply in_or_app. left. now apply Hstops.
    + apply in_app_or in Hin as [Hin|[Hin|[Hin|[]]]]; try discriminate Hin.
      exfalso. exact (quiet_no_scan _ _ StopDeviceScan _ Hquiet I Hin).
  - intros s Hin. apply in_app_or in Hin as [Hin|Hin].
    + destruct (Hstarts _ Hin) as [[cb Hpending]|Hfired].
      * left. exists cb. apply in_or_app. left. exact Hpending.
      * right. apply in_or_app. left. exact Hfired.
    + apply in_app_or in Hin as [Hin|[Hin|[Hin|[]]]]; try discriminate Hin.
      * exfalso. exact (quiet_no_scan _ _ StartDeviceScan _ Hquiet I Hin).
      * inversion Hin; subst. left. exists callback.
        apply in_or_app. right. left. reflexivity.
Qed.

Lemma scanInvariant_step ev w :
  enabled ev w = true -> scanInvariant w -> scanInvariant (step ev w).
Proof.
  intros Hen Hinv. destruct ev; simpl.
  - apply scanInvariant_quiet; [apply quiet_onMount | exact Hinv].
  - apply scanInvariant_quiet; [apply quiet_onStateChange | exact Hinv].
  - destruct (startBLEScan_log env (app w)) as (pre & Hpre & [Hlog|Hlog]).
    + apply scanInvariant_quiet; [rewrite Hlog; exact Hpre | exact Hinv].
    + eapply scanInvariant_start; [exact Hpre | exact Hlog | exact Hinv].
  - apply scanInvariant_quiet; [apply quiet_onScanResult | exact Hinv].
  - simpl in Hen. destruct (timers w) as [|[due callback] rest] eqn:Htimers;
      [discriminate|]. apply Z.eqb_eq in Hen. subst due.
    destruct Hinv as (Hpending & Hstops & Hstarts). rewrite Htimers in *.
    unfold scanInvariant, run. simpl. rewrite onTimeout_run. simpl.
    rewrite app_nil_r. split; [|split].
    + intros due cb Hin. destruct (Hpending due cb (or_intror Hin)) as [Hdue Hstart].
      split; [exact Hdue | apply in_or_app; left; exact Hstart].
    + intros t Hin. apply in_or_app. left.
      apply in_app_or in Hin as [Hin|[Hin|[]]]; [now apply Hstops|].
      inversion Hin; subst. apply (Hpending (now w) callback). left. reflexivity.
    + intros s Hin. apply in_app_or in Hin as [Hin|[Hin|[]]]; [|discriminate Hin].
      destruct (Hstarts _ Hin) as [[cb [Hhead|Hrest]]|Hfired].
      * right. apply in_or_app. right. left. inversion Hhead; subst. reflexivity.
      * left. exists cb. exact Hrest.
      * right. apply in_or_app. left. exact Hfired.
  - apply (scanInvariant_quiet (connecting device) w); [apply quiet_connecting | exact Hinv].
  - apply (scanInvariant_quiet (connectToDevice_resumed env device));
      [apply quiet_connectToDevice_resumed | exact Hinv].
  - apply scanInvariant_quiet; [apply quiet_onNotification | exact Hinv].
  - apply scanInvariant_quiet; [apply quiet_disconnectDevice | exact Hinv].
  - apply scanInvariant_quiet; [apply quiet_readSensorData | exact Hinv].
  - simpl in Hen. apply andb_prop in Hen as [Hms Hall]. apply Z.ltb_lt in Hms.
    rewrite forallb_forall in Hall.
    destruct Hinv as (Hpending & Hstops & Hstarts). unfold scanInvariant. simpl.
    split; [|split]; [|exact Hstops | exact Hstarts].
    intros due callback Hin. split; [|now apply (Hpending due callback)].
    specialize (Hall _ Hin). simpl in Hall. now apply Z.leb_le in Hall.
Qed.

Lemma scanInvariant_reachable w : Reachable w -> scanInvariant w.
Proof.
  intros [evs Hexec].
  apply (exec_invariant scanInvariant scanInvariant_step evs initialWorld w);
    [|exact Hexec].
  repeat split; intros; simpl in *; contradiction.
Qed.

(** C8, as the code has it: a call of [startBLEScan] that starts a scan
    schedules, right after [startDeviceScan], one callback 10000 ms ahead;
    the callback calls [stopDeviceScan] and clears the scanning flag; and
    in every reachable state each [stopDeviceScan] call comes exactly
    10000 ms after some [startDeviceScan] call, each started scan has its
    callback either still pending for 10000 ms after the start or fired
    at that time (it is never cancelled), and no pending callback is
    overdue. *)
Theorem scan_window_callbacks :
  (forall env st,
     In (Did StartDeviceScan) (log_of (startBLEScan env st)) ->
     exists pre,
       Forall quiet pre
       /\ log_of (startBLEScan env st)
          = (pre ++ [Did StartDeviceScan;
                     Did (SetTimeout (StopScan (List.length (devices st))) 10000)])%list)
  /\ (forall callback st,
        log_of (onTimeout callback st) = [Did StopDeviceScan]
        /\ scanning (state_of (onTimeout callback st)) = false)
  /\ (forall w, Reachable w ->
        (forall t, In (t, Did StopDeviceScan) (trace w) ->
           In (t - 10000, Did StartDeviceScan) (trace w))
        /\ (forall s, In (s, Did StartDeviceScan) (trace w) ->
              (exists callback, In (s + 10000, callback) (timers w))
              \/ In (s + 10000, Did StopDeviceScan) (trace w))
        /\ (forall due callback, In (due, callback) (timers w) ->
              now w <= due /\ In (due - 10000, Did StartDeviceScan) (trace w))).
Proof.
  split; [|split].
  - intros env st Hstart.
    destruct (startBLEScan_log env st) as (pre & Hpre & [Hlog|Hlog]).
    + exfalso. rewrite Hlog in Hstart. rewrite Forall_forall in Hpre.
      exact (Hpre _ Hstart I).
    + exists pre. split; assumption.
  - intros callback st. rewrite onTimeout_run. split; reflexivity.
  - intros w Hw. destruct (scanInvariant_reachable w Hw) as (Hpending & Hstops & Hstarts).
    repeat split; try assumption; now apply (Hpending due callback).
Qed.

Lemma rescan_stopped_early :
  exists w, exec Sample.rescan initialWorld = Some w
            /\ stoppedSessions (trace w) None = [(2000, 10000)]
            /\ timers w = [(12000, StopScan 0)]
            /\ scanning (app w) = false.
Proof. eexists. split; [vm_compute; reflexivity|]. repeat split. Qed.

(** C8, as stated, fails: a scan started at 2000 ms, after a scan error
    re-enabled the Scan button, is stopped at 10000 ms by the callback of
    the scan started at 0 ms, 8000 ms after it started. *)
Lemma scan_stopped_before_its_window :
  ~ (forall w, Reachable w ->
       Forall (fun session => snd session = fst session + 10000)
              (stoppedSessions (trace w) None)).
Proof.
  intros Hclaim. destruct rescan_stopped_early as (w & Hexec & Hstopped & _).
  specialize (Hclaim w (ex_intro _ Sample.rescan Hexec)).
  rewrite Hstopped in Hclaim. inversion Hclaim as [|? ? Hwindow _]; subst.
  simpl in Hwindow. discriminate Hwindow.
Qed.

Lemma scan_window_callbacks_witness :
  In (0, Did StartDeviceScan)
     (trace (step (PressScan Sample.healthy) (step (AdapterState PoweredOn) initialWorld)))
  /\ exists pre,
       log_of (startBLEScan Sample.healthy (with_bluetoothState PoweredOn initialState))
       = (pre ++ [Did StartDeviceScan; Did (SetTimeout (StopScan 0) 10000)])%list.
Proof.
  split.
  - assert (Hreach : Reachable (step (PressScan Sample.healthy)
                                  (step (AdapterState PoweredOn) initialWorld)))
      by (exists [AdapterState PoweredOn; PressScan Sample.healthy]; reflexivity).
    destruct (proj2 (proj2 scan_window_callbacks) _ Hreach) as (_ & _ & Hpending).
    destruct (Hpending 10000 (StopScan 0)) as [_ Hstart]; [|exact Hstart].
    cbv. left. reflexivity.
  - destruct (proj1 scan_window_callbacks Sample.healthy
                (with_bluetoothState PoweredOn initialState)) as (pre & _ & Hlog).
    + cbv. do 4 right. left. reflexivity.
    + exists pre. exact Hlog.
Defined.

(* ===================================================================== *)
(** ** Failures *)
(* ===================================================================== *)

Lemma stopsAtFailure_ret {A} (a : A) : stopsAtFailure (ret a).
Proof. intros st. constructor. Qed.

Lemma stopsAtFailure_modify f : stopsAtFailure (modify f).
Proof. intros st. constructor. Qed.

Lemma stopsAtFailure_call {A} e (o : Outcome A) : stopsAtFailure (call e o).
Proof.
  intros st. unfold call, result_of, log_of. simpl. destruct o as [a|err].
  - repeat constructor.
  - exists [], e. split; [reflexivity | constructor].
Qed.

Lemma stopsAtFailure_bind {A B} (m : M A) (k : A -> M B) :
  stopsAtFailure m -> (forall a, stopsAtFailure (k a)) -> stopsAtFailure (bind m k).
Proof.
  intros Hm Hk st. specialize (Hm st). unfold bind, result_of, log_of in *.
  destruct (m st) as [[[a|err] s] l]; simpl in *; [|exact Hm].
  specialize (Hk a s). unfold result_of, log_of in Hk.
  destruct (k a s) as [[[b|err] s2] l2]; simpl in *.
  - now apply Forall_app.
  - destruct Hk as (calls & e & -> & Hcalls).
    exists (l ++ calls)%list, e. split; [now rewrite app_assoc | now apply Forall_app].
Qed.

Lemma stopsAtFailure_for_of {A} (xs : list A) (body : A -> M unit) :
  (forall x, stopsAtFailure (body x)) -> stopsAtFailure (for_of xs body).
Proof.
  intros Hbody. induction xs as [|x rest IH]; simpl.
  - apply stopsAtFailure_ret.
  - apply stopsAtFailure_bind; [apply Hbody | intros _; exact IH].
Qed.

(** [connection] makes no call after one that failed. *)
Lemma connection_stopsAtFailure env device : stopsAtFailure (connection env device).
Proof.
  unfold connection, setSelectedDevice, setConnected, setStatusMsg.
  repeat first
    [ apply stopsAtFailure_bind; [|intro]
    | apply stopsAtFailure_for_of; intro
    | apply stopsAtFailure_call
    | apply stopsAtFailure_modify
    | apply stopsAtFailure_ret
    | match goal with
      | |- stopsAtFailure (if ?b then _ else _) => destruct b
      end ].
Qed.

(** C5, as the code has it: every failure ends its handler normally and
    is followed by no further platform call but one to [console].  A
    scan error and a connection error put a message on the status line
    (and clear the scanning, respectively the connected, flag).  A
    notification error, a disconnect error and an unparseable payload are
    written to the console only: no state cell is written, so the status
    line keeps its text. *)
Theorem failures_end_without_retry :
  (forall error device st,
     onScanResult (Some error) device st
     = (Resolved tt,
        with_scanning false (with_statusMsg ("Scan error: " ++ message error) st),
        [Did (ConsoleError "Scan error:" (message error))]))
  /\ (forall env view st error,
        on_startDeviceScan env = Rejected error ->
        scanSession env view st
        = (Resolved tt,
           with_scanning false
             (with_statusMsg ("Scan failed: " ++ message error) (scanningState st)),
           [Failed StartDeviceScan; Did (ConsoleError "Scan failed:" (message error))]))
  /\ (forall env device st error,
        result_of (connection env device (state_of (connecting device st))) = Rejected error ->
        let r := connectToDevice env device st in
        result_of r = Resolved tt
        /\ statusMsg (state_of r) = "Connection failed: " ++ message error
        /\ connected (state_of r) = false
        /\ exists calls failed,
             log_of r
             = (calls ++ [Failed failed;
                          Did (ConsoleError "Connection failed:" (message error))])%list
             /\ Forall went calls)
  /\ (forall env error characteristic st,
        onNotification env (Some error) characteristic st
        = (Resolved tt, st, [Did (ConsoleError "Notification error:" (message error))]))
  /\ (forall env st selected error,
        selectedDevice st = Some selected ->
        on_cancelConnection env selected = Rejected error ->
        disconnectDevice env st
        = (Resolved tt, st,
           [Failed (CancelConnection selected);
            Did (ConsoleError "Disconnect failed:" (message error))]))
  /\ (forall env c payload st error,
        value c = Some payload -> payload <> "" ->
        JSON_parse env payload = Rejected error ->
        onNotification env None (Some c) st
        = (Resolved tt, st, [Did (ConsoleLog "Raw data received:" payload)])).
Proof.
  repeat match goal with |- _ /\ _ => split end.
  - reflexivity.
  - intros env view st error Hscan. rewrite scanSession_run, Hscan. reflexivity.
  - intros env device st error Hfail. cbv zeta. rewrite connectToDevice_split.
    pose proof (connection_stopsAtFailure env device (state_of (connecting device st)))
      as Hstop.
    unfold connectToDevice_resumed, try_catch.
    unfold result_of, log_of, state_of in *.
    destruct (connection env device _) as [[r s] l]. simpl in *. subst r.
    destruct Hstop as (calls & failed & -> & Hcalls).
    repeat split.
    exists calls, failed. split; [now rewrite <- app_assoc | exact Hcalls].
  - reflexivity.
  - intros env st selected error Hsel Hcancel.
    rewrite disconnectDevice_run, Hsel, Hcancel. reflexivity.
  - intros env c payload st error Hvalue Hpayload Hparse.
    rewrite (onNotification_run env c payload st Hvalue Hpayload), Hparse. reflexivity.
Qed.

Lemma disconnect_error_goes_to_console :
  on_cancelConnection Sample.stuck Sample.sensor
  = Rejected {| message := "Operation was cancelled" |}
  /\ selectedDevice Sample.monitoring = Some Sample.sensor
  /\ statusMsg Sample.monitoring = "Connected and monitoring ESP32-Sensor"
  /\ disconnectDevice Sample.stuck Sample.monitoring
     = (Resolved tt, Sample.monitoring,
        [Failed (CancelConnection Sample.sensor);
         Did (ConsoleError "Disconnect failed:" "Operation was cancelled")]).
Proof. repeat split. Qed.

(** C5, as stated, fails: when [cancelConnection] is rejected,
    [disconnectDevice] writes no state cell; the status line still reads
    "Connected and monitoring ESP32-Sensor" and the failure goes to the
    console only. *)
Lemma disconnect_error_not_surfaced :
  ~ (forall env st selected error,
       selectedDevice st = Some selected ->
       on_cancelConnection env selected = Rejected error ->
       statusSurfaced st (state_of (disconnectDevice env st))).
Proof.
  intros Hclaim.
  destruct disconnect_error_goes_to_console as (Hcancel & Hselected & _ & Hrun).
  apply (Hclaim Sample.stuck Sample.monitoring Sample.sensor _ Hselected Hcancel).
  rewrite Hrun. reflexivity.
Qed.

Lemma failures_end_without_retry_witness :
  statusMsg (state_of (scanSession Sample.jammed initialState initialState))
  = "Scan failed: BluetoothLE is unsupported"
  /\ statusMsg (state_of (connectToDevice Sample.flaky Sample.sensor initialState))
     = "Connection failed: Operation timed out"
  /\ disconnectDevice Sample.stuck Sample.monitoring
     = (Resolved tt, Sample.monitoring,
        [Failed (CancelConnection Sample.sensor);
         Did (ConsoleError "Disconnect failed:" "Operation was cancelled")])
  /\ onNotification Sample.healthy None (Some (Sample.reading "21.5 C")) Sample.monitoring
     = (Resolved tt, Sample.monitoring, [Did (ConsoleLog "Raw data received:" "21.5 C")]).
Proof.
  destruct failures_end_without_retry
    as (_ & Hscan & Hconnect & _ & Hdisconnect & Hparse).
  split; [|split; [|split]].
  - rewrite (Hscan Sample.jammed initialState initialState
               {| message := "BluetoothLE is unsupported" |} eq_refl).
    reflexivity.
  - apply (Hconnect Sample.flaky Sample.sensor initialState
             {| message := "Operation timed out" |}). reflexivity.
  - apply (Hdisconnect Sample.stuck Sample.monitoring Sample.sensor
             {| message := "Operation was cancelled" |}); reflexivity.
  - apply (Hparse Sample.healthy (Sample.reading "21.5 C") "21.5 C" Sample.monitoring
             {| message := "Unexpected token" |}); [reflexivity | discriminate | reflexivity].
Defined.

(* ===================================================================== *)
(** ** More on the permission gate *)
(* ===================================================================== *)

(** X1: [checkPermissions] and [requestPermissions] never throw and never
    write a state cell, whatever the platform answers; the only calls
    they make are to [PermissionsAndroid], [console.warn] and [Alert];
    off Android they return [true] without making any call. *)
Theorem permission_functions_are_safe (env : Env) (st : AppState) :
  (exists granted log,
     checkPermissions env st = (Resolved granted, st, log) /\ Forall permissionCall log)
  /\ (exists granted log,
        requestPermissions env st = (Resolved granted, st, log) /\ Forall permissionCall log)
  /\ (Platform_OS env <> android ->
        checkPermissions env st = (Resolved true, st, [])
        /\ requestPermissions env st = (Resolved true, st, [])).
Proof.
  split; [apply checkPermissions_run|]. split; [apply requestPermissions_run|].
  intros Hos. unfold checkPermissions, requestPermissions.
  destruct (Platform_OS env); [contradiction | split; reflexivity | split; reflexivity].
Qed.

Lemma permission_functions_are_safe_witness :
  checkPermissions Sample.iPhone initialState = (Resolved true, initialState, [])
  /\ requestPermissions Sample.iPhone initialState = (Resolved true, initialState, []).
Proof.
  apply (proj2 (proj2 (permission_functions_are_safe Sample.iPhone initialState))).
  simpl. intros H. discriminate H.
Defined.

(** X2: on Android, when every check is answered, [checkPermissions]
    returns the conjunction of the answers; the two location checks are
    always made, the two Bluetooth checks only from API level 31 (below it
    they count as granted), and no check is skipped because an earlier one
    came back [false]. *)
Theorem checkPermissions_checks (env : Env) (st : AppState) (fine coarse scan conn : bool) :
  Platform_OS env = android ->
  on_check env ACCESS_FINE_LOCATION = Resolved fine ->
  on_check env ACCESS_COARSE_LOCATION = Resolved coarse ->
  on_check env BLUETOOTH_SCAN = Resolved scan ->
  on_check env BLUETOOTH_CONNECT = Resolved conn ->
  checkPermissions env st
  = (Resolved (fine && coarse
               && (if 31 <=? Platform_Version env then scan && conn else true)),
     st,
     ([Did (Check ACCESS_FINE_LOCATION); Did (Check ACCESS_COARSE_LOCATION)]
      ++ (if 31 <=? Platform_Version env
          then [Did (Check BLUETOOTH_SCAN); Did (Check BLUETOOTH_CONNECT)]
          else []))%list).
Proof.
  intros Hos Hfine Hcoarse Hscan Hconn. unfold checkPermissions. rewrite Hos.
  unfold_handler. rewrite Hfine, Hcoarse. simpl.
  destruct (31 <=? Platform_Version env); simpl.
  - rewrite Hscan, Hconn. simpl. now rewrite andb_assoc.
  - now rewrite !andb_true_r.
Qed.

Lemma checkPermissions_checks_witness :
  checkPermissions Sample.oldAndroid initialState
  = (Resolved true, initialState,
     [Did (Check ACCESS_FINE_LOCATION); Did (Check ACCESS_COARSE_LOCATION)])
  /\ checkPermissions Sample.refusing initialState
     = (Resolved false, initialState,
        [Did (Check ACCESS_FINE_LOCATION); Did (Check ACCESS_COARSE_LOCATION);
         Did (Check BLUETOOTH_SCAN); Did (Check BLUETOOTH_CONNECT)]).
Proof.
  split.
  - apply (checkPermissions_checks Sample.oldAndroid initialState true true false false);
      reflexivity.
  - apply (checkPermissions_checks Sample.refusing initialState false false false false);
      reflexivity.
Defined.

(** X3: on Android, if one of the checks that [checkPermissions] makes is
    rejected, it returns [false] after a [console.warn], without
    throwing. *)
Theorem checkPermissions_rejected (env : Env) (st : AppState) (p : Permission) (e : Error) :
  Platform_OS env = android ->
  In p (requestedPermissions (Platform_Version env)) ->
  on_check env p = Rejected e ->
  result_of (checkPermissions env st) = Resolved false
  /\ exists reported,
       In (Did (ConsoleWarn "Permission check error:" (message reported)))
          (log_of (checkPermissions env st)).
Proof.
  intros Hos Hp Hrejected. unfold checkPermissions. rewrite Hos.
  unfold requestedPermissions in Hp. unfold_handler.
  destruct (31 <=? Platform_Version env); simpl in Hp;
    repeat match type of Hp with
           | _ \/ _ => destruct Hp as [Hp|Hp]
           | False => contradiction
           end;
    subst p;
    destruct (on_check env ACCESS_FINE_LOCATION) as [?|e1];
    destruct (on_check env ACCESS_COARSE_LOCATION) as [?|e2];
    try destruct (on_check env BLUETOOTH_SCAN) as [?|e3];
    try destruct (on_check env BLUETOOTH_CONNECT) as [?|e4];
    try discriminate Hrejected; simpl;
    (split; [reflexivity | eexists; simpl; eauto 10]).
Qed.

Lemma checkPermissions_rejected_witness :
  result_of (checkPermissions Sample.checkFails initialState) = Resolved false.
Proof.
  apply (checkPermissions_rejected Sample.checkFails initialState ACCESS_COARSE_LOCATION
           {| message := "Activity is null" |}).
  - reflexivity.
  - simpl. tauto.
  - reflexivity.
Defined.




Lemma checkPermissions_no_dialog env : logs (fun entry => ~ requestCall entry) (checkPermissions env).
Proof. unfold checkPermissions. handler. Qed.

(** X5: with the adapter not [PoweredOn], [startBLEScan] raises the
    "Bluetooth Error" alert and does nothing else: no permission is
    checked and no state cell is written.  With the adapter on and the
    permissions already held, it never opens the permission dialog. *)
Theorem startBLEScan_asks_only_when_needed (env : Env) (st : AppState) :
  (bluetoothState st <> PoweredOn ->
     startBLEScan env st
     = (Resolved tt, st, [Did (AlertAlert "Bluetooth Error" "Please turn on Bluetooth")]))
  /\ (result_of (checkPermissions env st) = Resolved true ->
        Forall (fun entry => ~ requestCall entry) (log_of (startBLEScan env st))).
Proof.
  split.
  - intros Hoff. unfold startBLEScan, bind, render.
    destruct (State_eqb (bluetoothState st) PoweredOn) eqn:Hon; [|reflexivity].
    apply State_eqb_eq in Hon. contradiction.
  - intros Hheld. pose proof (checkPermissions_no_dialog env st) as Hcheck.
    unfold startBLEScan. unfold bind at 1, render.
    destruct (State_eqb (bluetoothState st) PoweredOn); simpl;
      [|repeat constructor; simpl; tauto].
    unfold bind at 1. unfold result_of, log_of in *.
    destruct (checkPermissions env st) as [[r s] l]. simpl in *. subst r. simpl.
    rewrite scanSession_run.
    destruct (on_startDeviceScan env); simpl; apply Forall_app; split;
      try exact Hcheck; repeat constructor; simpl; tauto.
Qed.

Lemma startBLEScan_asks_only_when_needed_witness :
  log_of (startBLEScan Sample.healthy initialState)
  = [Did (AlertAlert "Bluetooth Error" "Please turn on Bluetooth")]
  /\ Forall (fun entry => ~ requestCall entry)
            (log_of (startBLEScan Sample.healthy (with_bluetoothState PoweredOn initialState))).
Proof.
  split.
  - rewrite (proj1 (startBLEScan_asks_only_when_needed Sample.healthy initialState)).
    + reflexivity.
    + simpl. intros H. discriminate H.
  - apply (proj2 (startBLEScan_asks_only_when_needed Sample.healthy
                    (with_bluetoothState PoweredOn initialState))).
    reflexivity.
Defined.

(* ===================================================================== *)
(** ** More on scanning *)
(* ===================================================================== *)

Lemma find_id_None device prevDevices :
  find (fun d => String.eqb (id d) (id device)) prevDevices = None <->
  ~ In (id device) (map id prevDevices).
Proof.
  split.
  - intros Hfind Hin. apply in_map_iff in Hin as (d & Hid & Hd).
    pose proof (find_none _ _ Hfind d Hd) as Hne. simpl in Hne.
    rewrite Hid, String.eqb_refl in Hne. discriminate.
  - intros Hnotin. destruct (find _ prevDevices) as [d|] eqn:Hfind; [|reflexivity].
    exfalso. apply Hnotin. apply find_some in Hfind as [Hd Heq].
    apply String.eqb_eq in Heq. rewrite <- Heq. now apply in_map.
Qed.

(** X6: the updater of the scan listener appends a device whose
    identifier is new and leaves the list alone when the identifier is
    already there, even if the device now reports another name; applying
    it twice is the same as applying it once. *)
Theorem addDevice_first_entry_wins (device : Device) (prevDevices : list Device) :
  (In (id device) (map id prevDevices) -> addDevice device prevDevices = prevDevices)
  /\ (~ In (id device) (map id prevDevices) ->
        addDevice device prevDevices = (prevDevices ++ [device])%list)
  /\ addDevice device (addDevice device prevDevices) = addDevice device prevDevices.
Proof.
  assert (Hold : forall l, In (id device) (map id l) -> addDevice device l = l).
  { intros l Hin. unfold addDevice.
    destruct (find _ l) eqn:Hfind; [reflexivity|].
    apply find_id_None in Hfind. contradiction. }
  assert (Hnew : forall l, ~ In (id device) (map id l) ->
                           addDevice device l = (l ++ [device])%list).
  { intros l Hnotin. unfold addDevice. apply find_id_None in Hnotin.
    now rewrite Hnotin. }
  split; [apply Hold|]. split; [apply Hnew|].
  destruct (in_dec string_dec (id device) (map id prevDevices)) as [Hin|Hnotin].
  - now rewrite (Hold _ Hin), (Hold _ Hin).
  - rewrite (Hnew _ Hnotin). apply Hold. rewrite map_app. apply in_or_app.
    right. left. reflexivity.
Qed.

Lemma addDevice_first_entry_wins_witness :
  addDevice {| id := id Sample.sensor; name := Some "Renamed" |} [Sample.sensor; Sample.other]
  = [Sample.sensor; Sample.other]
  /\ addDevice Sample.other [Sample.sensor] = [Sample.sensor; Sample.other].
Proof.
  split.
  - apply (proj1 (addDevice_first_entry_wins
                    {| id := id Sample.sensor; name := Some "Renamed" |}
                    [Sample.sensor; Sample.other])).
    simpl. tauto.
  - apply (proj1 (proj2 (addDevice_first_entry_wins Sample.other [Sample.sensor]))).
    simpl. intros [H|[]]. discriminate H.
Defined.

Lemma addDevice_appends device prevDevices :
  addDevice device prevDevices = prevDevices
  \/ addDevice device prevDevices = (prevDevices ++ [device])%list.
Proof. unfold addDevice. destruct (find _ prevDevices); auto. Qed.

Lemma scanResults_appends results : forall st,
  exists added,
    devices (scanResults results st) = (devices st ++ added)%list
    /\ Forall (fun d => In (None, Some d) results /\ JS.truthyStr (name d) = true) added.
Proof.
  induction results as [|[error device] rest IH]; intros st; simpl.
  - exists []. split; [now rewrite app_nil_r | constructor].
  - destruct (IH (state_of (onScanResult error device st))) as (added & Heq & Hadded).
    assert (Hweaken : Forall (fun d => ((error, device) = (None, Some d)
                                        \/ In (None, Some d) rest)
                                       /\ JS.truthyStr (name d) = true) added).
    { eapply Forall_impl; [|exact Hadded]. intros d [Hin Hname]. auto. }
    destruct (onScanResult_devices error device st) as [Hsame|(d & -> & Hname & Hadd)].
    + exists added. rewrite Heq, Hsame. auto.
    + destruct error as [e|]; [simpl in Hadd|].
      * exists added. rewrite Heq. simpl. auto.
      * destruct (addDevice_appends d (devices st)) as [Hkept|Hnew].
        -- exists added. rewrite Heq, Hadd, Hkept. auto.
        -- exists (d :: added). rewrite Heq, Hadd, Hnew, <- app_assoc. simpl.
           split; [reflexivity|]. constructor; [auto | exact Hweaken].
Qed.

(** X7: during a scan the device list only grows at its end: after any
    sequence of scan-result callbacks the list is the list from before
    followed by devices that were reported, without error and with a
    name, during that sequence.  No entry is removed, reordered or
    replaced. *)
Theorem scanResults_only_appends (results : list (option Error * option Device))
    (st : AppState) :
  exists added,
    devices (scanResults results st) = (devices st ++ added)%list
    /\ Forall (fun d => In (None, Some d) results /\ JS.truthyStr (name d) = true) added.
Proof. apply scanResults_appends. Qed.

(** X8: every device reported without error and with a non-empty name
    during a scan is in the list afterwards, by identifier. *)
Theorem scanResults_lists_every_named_device
    (results : list (option Error * option Device)) (st : AppState) (d : Device) :
  In (None, Some d) results ->
  JS.truthyStr (name d) = true ->
  In (id d) (map id (devices (scanResults results st))).
Proof.
  intros Hin Hname. revert st. induction results as [|[error device] rest IH];
    intros st; [contradiction|]. simpl. destruct Hin as [Heq|Hin]; [|now apply IH].
  inversion Heq; subst.
  destruct (scanResults_appends rest (state_of (onScanResult None (Some d) st)))
    as (added & -> & _).
  rewrite map_app. apply in_or_app. left. simpl. rewrite Hname. simpl.
  unfold addDevice. destruct (find _ (devices st)) as [x|] eqn:Hfind.
  - apply find_some in Hfind as [Hx Hid]. apply String.eqb_eq in Hid.
    rewrite <- Hid. now apply in_map.
  - rewrite map_app. apply in_or_app. right. left. reflexivity.
Qed.

Lemma scanResults_lists_every_named_device_witness :
  In (id Sample.other)
     (map id (devices (scanResults [(None, Some Sample.unnamed); (None, Some Sample.other);
                                    (Some {| message := "Scan failed" |}, None)]
                                   initialState))).
Proof.
  apply scanResults_lists_every_named_device; [simpl; tauto | reflexivity].
Defined.



Lemma startBLEScan_scanning env st :
  (scanning (state_of (startBLEScan env st)) = scanning st
   /\ forall t, scheduled t (log_of (startBLEScan env st)) = [])
  \/ scanning (state_of (startBLEScan env st)) = false
  \/ exists callback, forall t,
       scheduled t (log_of (startBLEScan env st)) = [(t + 10000, callback)].
Proof.
  destruct (startBLEScan_cases env st) as (pre & Hpre & Hcases).
  assert (Hquiet : Forall quiet pre)
    by (eapply Forall_impl; [|exact Hpre]; apply permissionCall_not_scan).
  destruct Hcases as [(_ & ->)|[(_ & _ & _ & ->)|(_ & _ & ->)]].
  - left. split; [reflexivity | intros t; now apply scheduled_quiet].
  - left. split; [reflexivity | intros t; now apply scheduled_quiet].
  - right. rewrite scanSession_run. destruct (on_startDeviceScan env) as [[]|e].
    + right. eexists. intros t. unfold log_of. simpl.
      rewrite scheduled_app, (scheduled_quiet _ _ Hquiet). reflexivity.
    + left. reflexivity.
Qed.

Lemma scanning_step ev w :
  enabled ev w = true ->
  (scanning (app w) = true -> timers w <> []) ->
  scanning (app (step ev w)) = true -> timers (step ev w) <> [].
Proof.
  intros Hen Hinv.
  assert (Hgrow : forall (l : list (Z * TimerCallback)), (timers w ++ l)%list = [] -> timers w = [])
    by (intros l Hnil; now apply app_eq_nil in Hnil).
  destruct ev; simpl.
  - rewrite (frame_onMount scanning) by (intros; reflexivity). intros Hs Hnil.
    exact (Hinv Hs (Hgrow _ Hnil)).
  - rewrite (frame_onStateChange scanning) by (intros; reflexivity). intros Hs Hnil.
    exact (Hinv Hs (Hgrow _ Hnil)).
  - destruct (startBLEScan_scanning env (app w)) as [[-> _]|[-> |[callback Hsched]]].
    + intros Hs Hnil. exact (Hinv Hs (Hgrow _ Hnil)).
    + discriminate.
    + intros _ Hnil. rewrite Hsched in Hnil. apply app_eq_nil in Hnil as [_ Hnil].
      discriminate Hnil.
  - intros Hs Hnil. apply (Hinv); [|exact (Hgrow _ Hnil)].
    destruct error; [discriminate Hs|]. destruct device as [d|]; [|exact Hs].
    simpl in Hs. destruct (JS.truthyStr (name d)); exact Hs.
  - simpl in Hen. destruct (timers w) as [|[due callback] rest]; [discriminate|].
    simpl. rewrite onTimeout_run. simpl. discriminate.
  - intros Hs Hnil. exact (Hinv Hs (Hgrow _ Hnil)).
  - rewrite (frame_connectToDevice_resumed scanning) by (intros; reflexivity).
    intros Hs Hnil. exact (Hinv Hs (Hgrow _ Hnil)).
  - rewrite (frame_onNotification scanning) by (intros; reflexivity). intros Hs Hnil.
    exact (Hinv Hs (Hgrow _ Hnil)).
  - rewrite (frame_disconnectDevice scanning) by (intros; reflexivity). intros Hs Hnil.
    exact (Hinv Hs (Hgrow _ Hnil)).
  - rewrite (frame_readSensorData scanning) by (intros; reflexivity). intros Hs Hnil.
    exact (Hinv Hs (Hgrow _ Hnil)).
  - exact Hinv.
Qed.

(** X10: in every reachable state, while the scanning flag is set (the
    Scan button is disabled and reads "Scanning...") a callback that
    clears the flag is pending: the flag cannot stay set forever. *)
Theorem scanning_has_pending_callback (w : World) :
  Reachable w ->
  scanning (app w) = true ->
  timers w <> []
  /\ forall due callback, In (due, callback) (timers w) ->
       scanning (state_of (onTimeout callback (app w))) = false.
Proof.
  intros [evs Hexec] Hscanning. split.
  - revert Hscanning.
    apply (exec_invariant (fun w => scanning (app w) = true -> timers w <> []))
      with (evs := evs) (w := initialWorld); [|discriminate | exact Hexec].
    intros ev w0. apply scanning_step.
  - intros due callback _. rewrite onTimeout_run. reflexivity.
Qed.

Lemma scanning_has_pending_callback_witness :
  timers (step (PressScan Sample.healthy) (step (AdapterState PoweredOn) initialWorld)) <> [].
Proof.
  apply (scanning_has_pending_callback
           (step (PressScan Sample.healthy) (step (AdapterState PoweredOn) initialWorld))).
  - exists [AdapterState PoweredOn; PressScan Sample.healthy]. reflexivity.
  - reflexivity.
Defined.

Lemma deviceLabel_named d : JS.truthyStr (name d) = true -> name d = Some (deviceLabel d).
Proof.
  unfold deviceLabel. intros Hname. rewrite Hname.
  destruct (name d); [reflexivity | discriminate].
Qed.

(** X11: in every reachable state each device card shows the device's
    own name: the fallback text of [device.name || 'Unknown Device'] is
    never taken, because unnamed devices never enter the list. *)
Theorem device_cards_show_names (w : World) (d : Device) :
  Reachable w -> In d (devices (app w)) -> name d = Some (deviceLabel d).
Proof.
  intros [evs Hexec] Hin. apply deviceLabel_named.
  assert (Hwf : wellFormedDevices (devices (app w))).
  { apply (exec_invariant (fun w => wellFormedDevices (devices (app w))))
      with (evs := evs) (w := initialWorld); [|apply wellFormedDevices_nil | exact Hexec].
    intros ev w0 _. apply step_devices. }
  destruct Hwf as [_ Hnamed]. rewrite Forall_forall in Hnamed. now apply Hnamed.
Qed.

Lemma device_cards_show_names_witness :
  name Sample.sensor = Some (deviceLabel Sample.sensor).
Proof.
  apply (device_cards_show_names
           (step (ScanResult None (Some Sample.sensor))
              (step (PressScan Sample.healthy) (step (AdapterState PoweredOn) initialWorld)))).
  - exists [AdapterState PoweredOn; PressScan Sample.healthy;
            ScanResult None (Some Sample.sensor)]. reflexivity.
  - left. reflexivity.
Defined.

(* ===================================================================== *)
(** ** More on connections *)
(* ===================================================================== *)

Lemma monitor_loop env chars st :
  (forall c, In c chars -> isNotifiable c = true -> on_monitor env c = Resolved tt) ->
  for_of chars (fun characteristic =>
                  if isNotifiable characteristic
                  then call (Monitor characteristic) (on_monitor env characteristic)
                  else ret tt) st
  = (Resolved tt, st, map (fun c => Did (Monitor c)) (filter isNotifiable chars)).
Proof.
  induction chars as [|c rest IH]; intros Hmonitor; [reflexivity|].
  assert (Hrest : forall c', In c' rest -> isNotifiable c' = true ->
                             on_monitor env c' = Resolved tt)
    by (intros c' Hin; apply Hmonitor; now right).
  specialize (IH Hrest).
  cbn [for_of filter map]. destruct (isNotifiable c) eqn:Hnotifiable.
  - rewrite (Hmonitor c (or_introl eq_refl) Hnotifiable), bind_call_resolved, IH.
    reflexivity.
  - rewrite bind_ret, IH. reflexivity.
Qed.

Lemma service_loop env found services st :
  (forall s, In s services -> on_characteristics env s = Resolved (found s)) ->
  (forall s c, In s services -> In c (found s) -> isNotifiable c = true ->
               on_monitor env c = Resolved tt) ->
  for_of services (fun service =>
    characteristics <- call (Characteristics service) (on_characteristics env service) ;;
    for_of characteristics (fun characteristic =>
      if isNotifiable characteristic
      then call (Monitor characteristic) (on_monitor env characteristic)
      else ret tt)) st
  = (Resolved tt, st, subscriptions found services).
Proof.
  induction services as [|s rest IH]; intros Hchars Hmonitor; [reflexivity|].
  assert (IH' := IH (fun s' Hin => Hchars s' (or_intror Hin))
                   (fun s' c Hin => Hmonitor s' c (or_intror Hin))).
  cbn [for_of]. unfold bind at 1. rewrite (Hchars s (or_introl eq_refl)).
  rewrite bind_call_resolved.
  rewrite monitor_loop by (intros c Hc; apply (Hmonitor s c); [now left | exact Hc]).
  unfold result_of, state_of, log_of. cbn [fst snd]. rewrite IH'. reflexivity.
Qed.

(** X12: when every call resolves, [connectToDevice] connects, discovers,
    lists the services, asks each service for its characteristics and
    subscribes to exactly the notifiable ones, in order; it ends with
    the connected flag set, the discovered device selected and the status
    "Connected and monitoring <name>", and writes no other cell. *)
Theorem connectToDevice_subscribes_to_notifiable (env : Env) (device : Device)
    (st : AppState) (connectedDevice discoveredDevice : Device)
    (services : list Service) (found : Service -> list Characteristic) :
  on_connect env device = Resolved connectedDevice ->
  on_discover env connectedDevice = Resolved discoveredDevice ->
  on_services env discoveredDevice = Resolved services ->
  (forall s, In s services -> on_characteristics env s = Resolved (found s)) ->
  (forall s c, In s services -> In c (found s) -> isNotifiable c = true ->
               on_monitor env c = Resolved tt) ->
  connectToDevice env device st
  = (Resolved tt,
     with_statusMsg ("Connected and monitoring " ++ JS.show (name device))
       (with_connected true (with_selectedDevice (Some discoveredDevice) st)),
     ([Did (Connect device);
       Did (DiscoverAllServicesAndCharacteristics connectedDevice);
       Did (Services discoveredDevice)]
      ++ subscriptions found services)%list).
Proof.
  intros Hconnect Hdiscover Hservices Hchars Hmonitor.
  rewrite connectToDevice_split, connecting_run.
  unfold connectToDevice_resumed, try_catch, connection.
  rewrite Hconnect, bind_call_resolved, Hdiscover, bind_call_resolved.
  unfold setSelectedDevice, setConnected, setStatusMsg.
  rewrite !bind_modify, Hservices, bind_call_resolved.
  unfold bind. rewrite (service_loop env found services _ Hchars Hmonitor).
  unfold modify, result_of, state_of, log_of. cbn [fst snd app].
  rewrite app_nil_r. reflexivity.
Qed.

Lemma connectToDevice_subscribes_to_notifiable_witness :
  log_of (connectToDevice Sample.healthy Sample.sensor initialState)
  = [Did (Connect Sample.sensor);
     Did (DiscoverAllServicesAndCharacteristics Sample.sensor);
     Did (Services Sample.sensor);
     Did (Characteristics Sample.environmental);
     Did (Monitor (Sample.reading Sample.warmPayload))].
Proof.
  rewrite (connectToDevice_subscribes_to_notifiable Sample.healthy Sample.sensor initialState
             Sample.sensor Sample.sensor [Sample.environmental]
             (fun _ => [Sample.reading Sample.warmPayload]));
    reflexivity.
Defined.

(** Once [connect()] and the discovery have resolved, the discovered
    device is selected, and it stays selected whatever happens next. *)
Lemma connection_selected env device st connectedDevice discoveredDevice :
  on_connect env device = Resolved connectedDevice ->
  on_discover env connectedDevice = Resolved discoveredDevice ->
  selectedDevice (state_of (connection env device st)) = Some discoveredDevice
  /\ exists rest,
       log_of (connection env device st) = Did (Connect device) :: rest
       /\ Forall neitherConnectNorCancel rest.
Proof.
  intros Hconnect Hdiscover.
  destruct (connection_log env device st) as (first & rest & Hlog & _ & Hrest).
  split.
  - unfold connection. rewrite Hconnect, bind_call_resolved, Hdiscover, bind_call_resolved.
    unfold setSelectedDevice, setConnected, setStatusMsg. rewrite !bind_modify.
    rewrite !state_of_triple.
    match goal with
    | |- selectedDevice (state_of (bind ?m ?k ?s)) = _ =>
        assert (Htail : preserves selectedDevice (bind m k)) by handler;
        rewrite (Htail s)
    end.
    reflexivity.
  - exists rest. split; [|exact Hrest]. rewrite Hlog. f_equal.
    unfold connection in Hlog. rewrite Hconnect, bind_call_resolved in Hlog.
    unfold log_of at 1 in Hlog. cbn [snd] in Hlog. now inversion Hlog.
Qed.

(** X13: when [connectToDevice] fails after [connect()] and the discovery
    have resolved, the catch block clears the connected flag but the
    device stays selected and its connection is not cancelled: it is
    still held after the call. *)
Theorem connectToDevice_failure_leaves_connection_open (env : Env) (device : Device)
    (st : AppState) (connectedDevice discoveredDevice : Device) (error : Error)
    (t : Z) (tr : list (Z * LogEntry)) :
  on_connect env device = Resolved connectedDevice ->
  on_discover env connectedDevice = Resolved discoveredDevice ->
  result_of (connection env device (state_of (connecting device st))) = Rejected error ->
  let r := connectToDevice env device st in
  connected (state_of r) = false
  /\ selectedDevice (state_of r) = Some discoveredDevice
  /\ In (id device) (held (tr ++ map (pair t) (log_of r)) []).
Proof.
  intros Hconnect Hdiscover Hfail. cbv zeta. rewrite connectToDevice_split.
  destruct (connection_selected env device (state_of (connecting device st))
              connectedDevice discoveredDevice Hconnect Hdiscover)
    as (Hselected & rest & Hlog & Hrest).
  unfold connectToDevice_resumed, try_catch. unfold result_of, state_of, log_of in *.
  destruct (connection env device _) as [[r s] l]. cbn [fst snd] in *. subst r l.
  rewrite connectionFailed_run. cbn [fst snd]. repeat split; [exact Hselected|].
  assert (Hno : Forall (fun entry => ~ cancelCall entry)
                  (rest ++ [Did (ConsoleError "Connection failed:" (message error))])).
  { apply Forall_app. split.
    - eapply Forall_impl; [|exact Hrest]. intros entry [_ H]. exact H.
    - repeat constructor. simpl. tauto. }
  rewrite held_app. cbn [app map held].
  apply (held_grows t _ _ Hno).
  destruct (existsb (String.eqb (id device)) (held tr [])) eqn:Hheld.
  - apply existsb_exists in Hheld as (i & Hin & Heq).
    apply String.eqb_eq in Heq. now subst i.
  - apply in_or_app. right. left. reflexivity.
Qed.

Lemma connectToDevice_failure_leaves_connection_open_witness :
  let r := connectToDevice Sample.servicesFail Sample.sensor initialState in
  connected (state_of r) = false
  /\ selectedDevice (state_of r) = Some Sample.sensor
  /\ In (id Sample.sensor) (held (map (pair 0) (log_of r)) []).
Proof.
  apply (connectToDevice_failure_leaves_connection_open Sample.servicesFail Sample.sensor
           initialState Sample.sensor Sample.sensor
           {| message := "Device is not connected" |} 0 []); reflexivity.
Defined.

Lemma connectToDevice_resumed_selected env device st :
  connected (state_of (connectToDevice_resumed env device st)) = true ->
  selectedDevice (state_of (connectToDevice_resumed env device st)) <> None.
Proof.
  unfold connectToDevice_resumed, try_catch.
  destruct (on_connect env device) as [connectedDevice|e1] eqn:Hconnect.
  - destruct (on_discover env connectedDevice) as [discoveredDevice|e2] eqn:Hdiscover.
    + destruct (connection_selected env device st connectedDevice discoveredDevice
                  Hconnect Hdiscover) as [Hselected _].
      unfold state_of in *. destruct (connection env device st) as [[[[]|e] s] l];
        cbn [fst snd] in *; [intros _; rewrite Hselected | simpl]; discriminate.
    + unfold connection. rewrite Hconnect, bind_call_resolved, Hdiscover.
      rewrite bind_call_rejected. simpl. discriminate.
  - unfold connection. rewrite Hconnect, bind_call_rejected. simpl. discriminate.
Qed.

Lemma selection_step ev w :
  (connected (app w) = true -> selectedDevice (app w) <> None) ->
  connected (app (step ev w)) = true -> selectedDevice (app (step ev w)) <> None.
Proof.
  intros Hinv.
  set (both := fun st => (connected st, selectedDevice st)).
  assert (Hsame : forall st', both st' = both (app w) ->
            connected st' = true -> selectedDevice st' <> None).
  { intros st' Heq. inversion Heq as [[Hc Hs]]. rewrite Hc, Hs. exact Hinv. }
  destruct ev; simpl.
  - apply Hsame. apply (frame_onMount both); intros; reflexivity.
  - destruct state; simpl; try exact Hinv. discriminate.
  - apply Hsame. destruct (startBLEScan_cases env (app w)) as (pre & _ & Hcases).
    destruct Hcases as [(_ & ->)|[(_ & _ & _ & ->)|(_ & _ & ->)]]; try reflexivity.
    rewrite scanSession_run. destruct (on_startDeviceScan env); reflexivity.
  - apply Hsame. destruct error; [reflexivity|]. destruct device as [d|]; [|reflexivity].
    simpl. destruct (JS.truthyStr (name d)); reflexivity.
  - destruct (timers w) as [|[due callback] rest]; [exact Hinv|].
    apply Hsame. simpl. rewrite onTimeout_run. reflexivity.
  - exact Hinv.
  - apply connectToDevice_resumed_selected.
  - apply Hsame. apply (frame_onNotification both); intros; reflexivity.
  - rewrite disconnectDevice_run. destruct (selectedDevice (app w)) as [selected|] eqn:Hsel.
    + destruct (on_cancelConnection env selected); rewrite !state_of_triple;
        [simpl; discriminate|].
      intros _. rewrite Hsel. discriminate.
    + rewrite !state_of_triple. intros Hflag. exfalso. exact (Hinv Hflag eq_refl).
  - apply Hsame. apply (frame_readSensorData both); intros; reflexivity.
  - exact Hinv.
Qed.

(** X14: in every reachable state, when the connected flag is set a
    device is selected; so the "Device Control" panel, rendered under
    [connected && selectedDevice], is shown exactly when the flag is
    set. *)
Theorem connected_implies_selected (w : World) :
  Reachable w ->
  (connected (app w) = true -> selectedDevice (app w) <> None)
  /\ connected (app w) && isSome (selectedDevice (app w)) = connected (app w).
Proof.
  intros [evs Hexec].
  assert (Hinv : connected (app w) = true -> selectedDevice (app w) <> None).
  { apply (exec_invariant
             (fun w => connected (app w) = true -> selectedDevice (app w) <> None))
      with (evs := evs) (w := initialWorld); [|discriminate | exact Hexec].
    intros ev w0 _. apply selection_step. }
  split; [exact Hinv|].
  destruct (connected (app w)); [|reflexivity].
  destruct (selectedDevice (app w)); [reflexivity|].
  exfalso. now apply Hinv.
Qed.

Lemma connected_implies_selected_witness :
  selectedDevice (app (step (ConnectSettled Sample.healthy Sample.sensor)
                         (step (PressConnect Sample.sensor)
                            (step (ScanResult None (Some Sample.sensor))
                               (step (PressScan Sample.healthy)
                                  (step (AdapterState PoweredOn) initialWorld))))))
  <> None.
Proof.
  apply connected_implies_selected.
  - exists [AdapterState PoweredOn; PressScan Sample.healthy;
            ScanResult None (Some Sample.sensor); PressConnect Sample.sensor;
            ConnectSettled Sample.healthy Sample.sensor]. reflexivity.
  - reflexivity.
Defined.

(** X15: when [cancelConnection] resolves, [disconnectDevice] releases
    the connection of the selected device and of no other: the
    connections held afterwards are those held before, less the selected
    device's.  With no device selected it makes no call at all. *)
Theorem disconnectDevice_releases_selected_only (env : Env) (st : AppState)
    (t : Z) (tr : list (Z * LogEntry)) :
  (forall selected,
     selectedDevice st = Some selected ->
     on_cancelConnection env selected = Resolved tt ->
     held (tr ++ map (pair t) (log_of (disconnectDevice env st))) []
     = filter (fun i => negb (String.eqb (id selected) i)) (held tr [])
     /\ connected (state_of (disconnectDevice env st)) = false
     /\ selectedDevice (state_of (disconnectDevice env st)) = None)
  /\ (selectedDevice st = None -> disconnectDevice env st = (Resolved tt, st, [])).
Proof.
  split.
  - intros selected Hsel Hcancel. rewrite disconnectDevice_run, Hsel, Hcancel.
    unfold log_of, state_of. cbn [fst snd map]. rewrite held_app. repeat split.
  - intros Hnone. now rewrite disconnectDevice_run, Hnone.
Qed.

Lemma disconnectDevice_releases_selected_only_witness :
  match exec Sample.twoTaps initialWorld with
  | Some w =>
      held (trace w ++ map (pair (now w)) (log_of (disconnectDevice Sample.healthy (app w)))) []
      = [id Sample.sensor]
  | None => False
  end.
Proof.
  destruct two_connections_held as (w & Hexec & Hheld & _ & Hselected).
  rewrite Hexec.
  rewrite (proj1 (proj1 (disconnectDevice_releases_selected_only Sample.healthy (app w)
                           (now w) (trace w)) Sample.other Hselected eq_refl)).
  rewrite Hheld. reflexivity.
Defined.

(* ===================================================================== *)
(** ** More on notifications and the readings shown *)
(* ===================================================================== *)

Lemma onNotification_cases env error characteristic st :
  onNotification env error characteristic st = (Resolved tt, st, [])
  \/ (exists label detail,
        onNotification env error characteristic st
        = (Resolved tt, st, [Did (ConsoleError label detail)])
        \/ onNotification env error characteristic st
           = (Resolved tt, st, [Did (ConsoleLog label detail)]))
  \/ (exists c payload data temperature humidity,
        characteristic = Some c /\ value c = Some payload
        /\ JSON_parse env payload = Resolved data
        /\ JS.get data "temperature" = Some temperature
        /\ JS.get data "humidity" = Some humidity
        /\ JS.truthy temperature || JS.truthy humidity = true
        /\ onNotification env error characteristic st = (Resolved tt, received data st, [])).
Proof.
  destruct error as [e|]; [right; left; eexists; eexists; left; reflexivity|].
  destruct characteristic as [c|]; [|left; reflexivity].
  destruct (value c) as [payload|] eqn:Hvalue;
    [|left; unfold onNotification; rewrite Hvalue; reflexivity].
  destruct (String.eqb_spec payload "") as [->|Hpayload];
    [left; unfold onNotification; rewrite Hvalue; reflexivity|].
  rewrite (onNotification_run env c payload st Hvalue Hpayload).
  destruct (JSON_parse env payload) as [data|e] eqn:Hparse;
    [|right; left; eexists; eexists; right; reflexivity].
  destruct (JS.get data "temperature") as [temperature|] eqn:Htemperature;
    [|right; left; eexists; eexists; right; reflexivity].
  destruct (JS.get data "humidity") as [humidity|] eqn:Hhumidity;
    [|right; left; eexists; eexists; right; reflexivity].
  destruct (JS.truthy temperature || JS.truthy humidity) eqn:Hpresent; [|left; reflexivity].
  right. right. exists c, payload, data, temperature, humidity. repeat split; assumption.
Qed.

(** X16: the notification listener never throws, whatever it is called
    with and whatever [JSON.parse] answers; it makes at most one call,
    to [console], and writes no cell other than the sensor snapshot and
    the status message. *)
Theorem onNotification_is_safe (env : Env) (error : option Error)
    (characteristic : option Characteristic) (st : AppState) :
  let r := onNotification env error characteristic st in
  result_of r = Resolved tt
  /\ (List.length (log_of r) <= 1)%nat
  /\ Forall (fun entry => exists label detail,
               entry = Did (ConsoleError label detail)
               \/ entry = Did (ConsoleLog label detail)) (log_of r)
  /\ state_of r
     = with_statusMsg (statusMsg (state_of r)) (with_sensorData (sensorData (state_of r)) st).
Proof.
  cbv zeta.
  destruct (onNotification_cases env error characteristic st)
    as [-> | [(label & detail & [-> | ->]) | (c & payload & data & t & h & _ & _ & _ & _ & _ & _ & ->)]];
    unfold result_of, log_of, state_of; cbn [fst snd List.length];
    repeat split; try lia; try (repeat constructor; eauto);
    destruct st; reflexivity.
Qed.

(** X17: a payload that parses to [null] makes the field read throw; the
    listener catches that and logs the payload as raw data.  A payload
    that parses to a number, a string, a boolean or an array is dropped
    without any call.  In both cases no state cell is written. *)
Theorem onNotification_ignores_non_objects (env : Env) (c : Characteristic)
    (payload : string) (data : JS.Value) (st : AppState) :
  value c = Some payload -> payload <> "" ->
  JSON_parse env payload = Resolved data ->
  (data = JS.Null ->
     onNotification env None (Some c) st
     = (Resolved tt, st, [Did (ConsoleLog "Raw data received:" payload)]))
  /\ (match data with
      | JS.Boolean _ | JS.Number _ | JS.Str _ | JS.Array _ => True
      | _ => False
      end ->
      onNotification env None (Some c) st = (Resolved tt, st, [])).
Proof.
  intros Hvalue Hpayload Hparse.
  rewrite (onNotification_run env c payload st Hvalue Hpayload), Hparse.
  split.
  - intros ->. reflexivity.
  - destruct data; simpl; intros H; try contradiction; reflexivity.
Qed.

Lemma onNotification_ignores_non_objects_witness :
  onNotification Sample.scalars None (Some (Sample.reading "null")) Sample.monitoring
  = (Resolved tt, Sample.monitoring, [Did (ConsoleLog "Raw data received:" "null")])
  /\ onNotification Sample.scalars None (Some (Sample.reading "21.5")) Sample.monitoring
     = (Resolved tt, Sample.monitoring, []).
Proof.
  split.
  - apply (proj1 (onNotification_ignores_non_objects Sample.scalars (Sample.reading "null")
                    "null" JS.Null Sample.monitoring eq_refl ltac:(discriminate) eq_refl)).
    reflexivity.
  - apply (proj2 (onNotification_ignores_non_objects Sample.scalars (Sample.reading "21.5")
                    "21.5" (JS.Number 21.5%float) Sample.monitoring
                    eq_refl ltac:(discriminate) eq_refl)).
    exact I.
Defined.

Lemma truthy_defined v : JS.truthy v = true -> isUndefined (Some v) = false.
Proof. destruct v; simpl; intros H; try reflexivity; discriminate H. Qed.

(** X18: while connected, a notification either changes nothing or
    leaves the "Sensor Readings" section on screen: whatever the
    listener stores passes the render's [!== undefined] test. *)
Theorem stored_reading_is_shown (env : Env) (error : option Error)
    (characteristic : option Characteristic) (st : AppState) :
  connected st = true ->
  let st' := state_of (onNotification env error characteristic st) in
  st' = st \/ showsSensorReadings st' = true.
Proof.
  intros Hconnected. cbv zeta.
  destruct (onNotification_cases env error characteristic st)
    as [-> | [(label & detail & [-> | ->])
             | (c & payload & data & t & h & _ & _ & _ & Ht & Hh & Hpresent & ->)]];
    try (left; reflexivity).
  right. unfold showsSensorReadings, received, state_of.
  cbn [fst snd sensorData connected with_statusMsg with_sensorData].
  rewrite Hconnected, Ht, Hh.
  apply orb_prop in Hpresent as [Htruthy|Htruthy];
    rewrite (truthy_defined _ Htruthy); cbn [negb andb orb];
    [reflexivity | apply orb_true_r].
Qed.

Lemma stored_reading_is_shown_witness :
  showsSensorReadings
    (state_of (onNotification Sample.healthy None
                 (Some (Sample.reading Sample.warmPayload)) Sample.monitoring)) = true.
Proof.
  destruct (stored_reading_is_shown Sample.healthy None
              (Some (Sample.reading Sample.warmPayload)) Sample.monitoring eq_refl)
    as [Hsame|Hshown]; [|exact Hshown].
  discriminate Hsame.
Defined.

(** X19: the sensor snapshot survives a power cycle.  The listener for
    [PoweredOff] and [connectToDevice] both leave it alone, so when a new
    connection is up after the adapter went off, the readings of the
    previous connection are shown again before any new notification. *)
Theorem readings_survive_power_cycle (env : Env) (device : Device) (st : AppState) :
  let off := state_of (onStateChange PoweredOff st) in
  let again := state_of (connectToDevice env device off) in
  sensorData again = sensorData st
  /\ showsSensorReadings off = false
  /\ (connected st = true -> connected again = true ->
      showsSensorReadings again = showsSensorReadings st).
Proof.
  cbv zeta.
  assert (Hkept : sensorData (state_of (connectToDevice env device
                                (state_of (onStateChange PoweredOff st))))
                  = sensorData st).
  { rewrite (frame_connectToDevice sensorData) by (intros; reflexivity). reflexivity. }
  split; [exact Hkept|]. split; [reflexivity|].
  intros Hbefore Hafter. unfold showsSensorReadings. now rewrite Hkept, Hbefore, Hafter.
Qed.

Lemma readings_survive_power_cycle_witness :
  let st := received (JS.Object [("temperature", JS.Number 21.5%float)]) Sample.monitoring in
  showsSensorReadings
    (state_of (connectToDevice Sample.healthy Sample.sensor
                 (state_of (onStateChange PoweredOff st)))) = true.
Proof.
  cbv zeta.
  rewrite (proj2 (proj2 (readings_survive_power_cycle Sample.healthy Sample.sensor
             (received (JS.Object [("temperature", JS.Number 21.5%float)]) Sample.monitoring))));
    reflexivity.
Defined.

(* ===================================================================== *)
(** ** The manual read, and counting callbacks *)
(* ===================================================================== *)

(** X20: when [services()] is rejected, [readSensorData] does not throw:
    it logs the failure, ends on the status "Failed to read data" and
    writes no other cell. *)
Theorem readSensorData_failure (env : Env) (st : AppState) (selected : Device)
    (error : Error) :
  selectedDevice st = Some selected ->
  on_services env selected = Rejected error ->
  readSensorData env st
  = (Resolved tt, with_statusMsg "Failed to read data" st,
     [Failed (Services selected); Did (ConsoleError "Read failed:" (message error))]).
Proof.
  intros Hselected Hservices. unfold readSensorData. unfold_handler.
  rewrite Hselected. simpl. rewrite Hservices. reflexivity.
Qed.

Lemma readSensorData_failure_witness :
  statusMsg (state_of (readSensorData Sample.servicesFail Sample.monitoring))
  = "Failed to read data".
Proof.
  rewrite (readSensorData_failure Sample.servicesFail Sample.monitoring Sample.sensor
             {| message := "Device is not connected" |} eq_refl eq_refl).
  reflexivity.
Defined.

Lemma filter_quiet t log :
  Forall quiet log ->
  filter didStart (map (pair t) log) = [] /\ filter didStop (map (pair t) log) = [].
Proof.
  induction 1 as [|entry log Hentry _ [IHstart IHstop]]; [split; reflexivity|].
  cbn [map filter]. unfold didStart at 1, didStop at 1. cbn [snd].
  destruct entry as [e|e]; [destruct e|]; try (split; assumption);
    exfalso; apply Hentry; exact I.
Qed.

Lemma callbacks_run_quiet m w :
  Forall quiet (log_of (m (app w))) ->
  timers (run m w) = timers w
  /\ filter didStart (trace (run m w)) = filter didStart (trace w)
  /\ filter didStop (trace (run m w)) = filter didStop (trace w).
Proof.
  intros Hquiet. unfold run. cbn [timers trace].
  destruct (filter_quiet (now w) _ Hquiet) as [Hstart Hstop].
  rewrite (scheduled_quiet _ _ Hquiet), !filter_app, Hstart, Hstop, !app_nil_r.
  repeat split.
Qed.

Lemma callbacks_step ev w :
  enabled ev w = true ->
  List.length (filter didStart (trace w))
  = (List.length (filter didStop (trace w)) + List.length (timers w))%nat ->
  List.length (filter didStart (trace (step ev w)))
  = (List.length (filter didStop (trace (step ev w))) + List.length (timers (step ev w)))%nat.
Proof.
  intros Hen Hinv.
  assert (Hquiet : forall m, Forall quiet (log_of (m (app w))) ->
            List.length (filter didStart (trace (run m w)))
            = (List.length (filter didStop (trace (run m w)))
               + List.length (timers (run m w)))%nat).
  { intros m Hm. destruct (callbacks_run_quiet m w Hm) as (-> & -> & ->). exact Hinv. }
  destruct ev; cbn [step].
  - apply Hquiet, quiet_onMount.
  - apply Hquiet, quiet_onStateChange.
  - destruct (startBLEScan_log env (app w)) as (pre & Hpre & [Hlog|Hlog]).
    + apply Hquiet. rewrite Hlog. exact Hpre.
    + destruct (filter_quiet (now w) _ Hpre) as [Hstart Hstop].
      unfold run. cbn [timers trace]. rewrite Hlog.
      rewrite scheduled_app, (scheduled_quiet _ _ Hpre), map_app, !filter_app.
      rewrite Hstart, Hstop. cbn. rewrite !length_app. cbn. lia.
  - apply Hquiet, quiet_onScanResult.
  - cbn [enabled] in Hen. destruct (timers w) as [|[due callback] rest] eqn:Htimers;
      [discriminate|].
    unfold run. cbn [timers trace app now]. rewrite onTimeout_run.
    unfold log_of. cbn [snd scheduled map]. rewrite !filter_app, !length_app.
    cbn in *. rewrite ?length_app in *. cbn in *. lia.
  - apply (Hquiet (connecting device)), quiet_connecting.
  - apply (Hquiet (connectToDevice_resumed env device)), quiet_connectToDevice_resumed.
  - apply Hquiet, quiet_onNotification.
  - apply Hquiet, quiet_disconnectDevice.
  - apply Hquiet, quiet_readSensorData.
  - exact Hinv.
Qed.

(** X21: in every reachable state the number of scans started equals the
    number of [stopDeviceScan] calls made plus the number of callbacks
    still pending: each started scan gets exactly one callback, and each
    callback stops the scanner exactly once. *)
Theorem one_callback_per_scan (w : World) :
  Reachable w ->
  List.length (filter didStart (trace w))
  = (List.length (filter didStop (trace w)) + List.length (timers w))%nat.
Proof.
  intros [evs Hexec].
  apply (exec_invariant
           (fun w => List.length (filter didStart (trace w))
                     = (List.length (filter didStop (trace w))
                        + List.length (timers w))%nat)
           callbacks_step evs initialWorld w); [reflexivity | exact Hexec].
Qed.

Lemma one_callback_per_scan_witness :
  match exec Sample.rescan initialWorld with
  | Some w =>
      List.length (filter didStart (trace w)) = 2%nat
      /\ List.length (filter didStop (trace w)) = 1%nat
      /\ List.length (timers w) = 1%nat
  | None => False
  end.
Proof.
  destruct rescan_stopped_early as (w & Hexec & _ & Htimers & _).
  rewrite Hexec.
  pose proof (one_callback_per_scan w (ex_intro _ Sample.rescan Hexec)) as Hcount.
  rewrite Htimers in *. cbn [List.length] in *.
  assert (Hstops : List.length (filter didStop (trace w)) = 1%nat).
  { revert Hexec. vm_compute. intros Hexec. inversion Hexec. reflexivity. }
  rewrite Hstops in *. repeat split. exact Hcount.
Defined.
